(** * The query job coordinator of the TA-agent frontend

    A shallow embedding of the asynchronous job lifecycle code of
    [ta-agent-frontend]:

    - [store/querySlice.ts]: the Redux slice holding the known queries, the
      focused query, the comparison payload and the error slot;
    - [components/dashboard/QueryInput.tsx]: validation, submission and the
      polling effect;
    - [components/dashboard/QueryHistory.tsx]: the search/sort projection.

    Reducers are written with Immer in the source (mutation of a draft that
    yields a new state); they are embedded as pure functions on the state
    record.  Network answers are inputs of the embedded handlers, and the
    calls a handler makes are recorded in a log. *)

From Stdlib Require Import ZArith Lia String Ascii DecimalString.
From stdpp Require Import base list gmap sorting.

Local Open Scope Z_scope.

(** ** JavaScript strings

    A JavaScript string is a sequence of UTF-16 code units. *)
Module JsString.

Definition jsstring := list N.

(** A string literal of the source, written with ASCII characters. *)
Definition lit (s : string) : jsstring :=
  (fun a => N_of_ascii a) <$> list_ascii_of_string s.

(** [WhiteSpace] and [LineTerminator] code points of ECMAScript, the ones
    [String.prototype.trim] strips. *)
Definition isWhiteSpace (c : N) : bool :=
  let c := Z.of_N c in
  (c =? 9) || (c =? 10) || (c =? 11) || (c =? 12) || (c =? 13) || (c =? 32)
  || (c =? 160) || (c =? 5760) || ((8192 <=? c) && (c <=? 8202))
  || (c =? 8232) || (c =? 8233) || (c =? 8239) || (c =? 8287)
  || (c =? 12288) || (c =? 65279).

Fixpoint trimStart (s : jsstring) : jsstring :=
  match s with
  | [] => []
  | c :: s' => if isWhiteSpace c then trimStart s' else s
  end.

Definition trimEnd (s : jsstring) : jsstring :=
  reverse (trimStart (reverse s)).

(** [s.trim()] *)
Definition trim (s : jsstring) : jsstring := trimEnd (trimStart s).

(** Truthiness of a string: only the empty string is falsy. *)
Definition truthy (s : jsstring) : bool :=
  match s with [] => false | _ :: _ => true end.

(** [a || b] on strings. *)
Definition or_else (a b : jsstring) : jsstring :=
  if truthy a then a else b.

(** [s.toLowerCase()] on the ASCII letters, other code units kept: the
    case mapping of the runtime restricted to ASCII, for the examples. *)
Definition toLowerCase (s : jsstring) : jsstring :=
  (fun c => if ((65 <=? c) && (c <=? 90))%N then (c + 32)%N else c) <$> s.

Fixpoint startsWith (s p : jsstring) : bool :=
  match p, s with
  | [], _ => true
  | _ :: _, [] => false
  | a :: p', b :: s' => (a =? b)%N && startsWith s' p'
  end.

(** [s.includes(p)] *)
Fixpoint includes (s p : jsstring) : bool :=
  startsWith s p ||
  match s with
  | [] => false
  | _ :: s' => includes s' p
  end.

(** The comparison of the code unit sequences: negative, zero or positive.
    It stands for [a.localeCompare(b)] in the examples; the collation of a
    locale orders letters otherwise (lower case before upper case), and
    agrees with it on the empty string, which comes first, and on words of
    upper-case ASCII letters. *)
Fixpoint localeCompare (a b : jsstring) : Z :=
  match a, b with
  | [], [] => 0
  | [], _ :: _ => -1
  | _ :: _, [] => 1
  | x :: a', y :: b' =>
      match (x ?= y)%N with
      | Lt => -1
      | Gt => 1
      | Eq => localeCompare a' b'
      end
  end.

End JsString.
Export JsString.

(** ** [types/index.ts] *)
Module Types.

(** [status: 'pending' | 'completed' | 'failed'] *)
Inductive Status := pending | completed | failed.

#[export] Instance Status_eq_dec : EqDecision Status.
Proof. solve_decision. Defined.

(** [any]: a payload this layer never looks into, kept as its JSON text. *)
Definition any := jsstring.

(** [interface Query].  Optional fields are [option]s.  [created_at] and
    [completed_at] are ISO timestamps in the source; the embedding keeps the
    instant they denote, the number of milliseconds [new Date(s).getTime()]
    yields. *)
Record Query := {
  id : Z;
  user_id : Z;
  query_text : jsstring;
  query_type : jsstring;
  ticker : option jsstring;
  result : option any;
  status : Status;
  error_message : option jsstring;
  created_at : Z;
  completed_at : option Z
}.

(** [interface QueryCreate] *)
Record QueryCreate := {
  qc_query_text : jsstring;
  qc_query_type : jsstring;
  qc_ticker : option jsstring
}.

(** [interface QueryListResponse] *)
Record QueryListResponse := {
  lr_total : Z;
  lr_queries : list Query
}.

(** [status === 'completed' || status === 'failed'] *)
Definition terminal (s : Status) : bool :=
  match s with
  | completed | failed => true
  | pending => false
  end.

End Types.
Export Types.

(** ** [store/querySlice.ts] *)
Module QuerySlice.

(** [interface QueryState] *)
Record QueryState := {
  queries : list Query;
  currentQuery : option Query;
  comparisonData : option any;
  total : Z;
  loading : bool;
  error : option jsstring
}.

Definition initialState : QueryState :=
  {| queries := [];
     currentQuery := None;
     comparisonData := None;
     total := 0;
     loading := false;
     error := None |}.

(** The actions the slice can be sent: its three plain reducers and the
    lifecycle actions ([pending], [fulfilled], [rejected]) of its four
    thunks. *)
Inductive Action :=
| clearError
| clearCurrentQuery
| setComparisonData (payload : option any)
| createQuery_pending
| createQuery_fulfilled (payload : Query)
| createQuery_rejected (payload : jsstring)
| fetchQueries_pending
| fetchQueries_fulfilled (payload : QueryListResponse)
| fetchQueries_rejected (payload : jsstring)
| fetchQuery_pending
| fetchQuery_fulfilled (payload : Query)
| fetchQuery_rejected (payload : jsstring)
| deleteQuery_pending
| deleteQuery_fulfilled (payload : Z)
| deleteQuery_rejected (payload : jsstring).

(** [state.queries.findIndex(q => q.id === id)]; [None] stands for [-1]. *)
Definition findIndex (i : Z) (qs : list Query) : option nat :=
  fst <$> list_find (fun q => id q = i) qs.

(** The slice reducer.  A case the slice does not register
    ([fetchQuery.pending], [fetchQuery.rejected], [deleteQuery.pending],
    [deleteQuery.rejected]) returns the state as it is. *)
Definition reducer (state : QueryState) (action : Action) : QueryState :=
  match action with
  | clearError =>
      {| queries := queries state; currentQuery := currentQuery state;
         comparisonData := comparisonData state; total := total state;
         loading := loading state; error := None |}
  | clearCurrentQuery =>
      {| queries := queries state; currentQuery := None;
         comparisonData := None; total := total state;
         loading := loading state; error := error state |}
  | setComparisonData payload =>
      {| queries := queries state; currentQuery := None;
         comparisonData := payload; total := total state;
         loading := loading state; error := error state |}
  | createQuery_pending =>
      {| queries := queries state; currentQuery := currentQuery state;
         comparisonData := comparisonData state; total := total state;
         loading := true; error := None |}
  | createQuery_fulfilled payload =>
      {| queries := payload :: queries state; currentQuery := Some payload;
         comparisonData := None; total := total state;
         loading := false; error := error state |}
  | createQuery_rejected payload =>
      {| queries := queries state; currentQuery := currentQuery state;
         comparisonData := comparisonData state; total := total state;
         loading := false; error := Some payload |}
  | fetchQueries_pending =>
      {| queries := queries state; currentQuery := currentQuery state;
         comparisonData := comparisonData state; total := total state;
         loading := true; error := None |}
  | fetchQueries_fulfilled payload =>
      {| queries := lr_queries payload; currentQuery := currentQuery state;
         comparisonData := comparisonData state; total := lr_total payload;
         loading := false; error := error state |}
  | fetchQueries_rejected payload =>
      {| queries := queries state; currentQuery := currentQuery state;
         comparisonData := comparisonData state; total := total state;
         loading := false; error := Some payload |}
  | fetchQuery_fulfilled payload =>
      {| queries :=
           match findIndex (id payload) (queries state) with
           | Some index => <[index := payload]> (queries state)
           | None => queries state
           end;
         currentQuery := Some payload;
         comparisonData := comparisonData state; total := total state;
         loading := loading state; error := error state |}
  | deleteQuery_fulfilled payload =>
      {| queries := filter (fun q => id q <> payload) (queries state);
         currentQuery := currentQuery state;
         comparisonData := comparisonData state;
         total := total state - 1;
         loading := loading state; error := error state |}
  | fetchQuery_pending | fetchQuery_rejected _
  | deleteQuery_pending | deleteQuery_rejected _ => state
  end.

(** The state after a sequence of actions. *)
Definition run (state : QueryState) (actions : list Action) : QueryState :=
  foldl reducer state actions.

(** Both display slots are occupied. *)
Definition both_shown (state : QueryState) : bool :=
  match currentQuery state, comparisonData state with
  | Some _, Some _ => true
  | _, _ => false
  end.

End QuerySlice.

(** ** [components/dashboard/QueryInput.tsx] *)
Module QueryInput.
Import QuerySlice.

(** What a handler does outside the component: calls of [queryService]
    (the network) and [alert]. *)
Inductive Call :=
| api_createQuery (data : QueryCreate)
| api_getQueries (skip limit : Z)
| api_getQuery (query_id : Z)
| window_alert (message : jsstring).

(** Whether a call goes to the network. *)
Definition is_network (c : Call) : bool :=
  match c with
  | window_alert _ => false
  | _ => true
  end.

(** An item of a list of field errors, in the shapes the server sends: an
    object, with its [msg] when it has one, or a plain string. *)
Inductive FieldError :=
| error_object (msg : option jsstring)
| error_string (s : jsstring).

(** What [err.msg || err] contributes to the joined message: the [msg] of
    an object when it is a non-empty string, the text [[object Object]] an
    object prints as when it has no [msg] or an empty one, and a plain
    string as it is. *)
Definition field_message (err : FieldError) : jsstring :=
  match err with
  | error_object (Some m) => or_else m (lit "[object Object]")
  | error_object None => lit "[object Object]"
  | error_string s => s
  end.

(** [error.response?.data?.detail] of a failed request. *)
Inductive Detail :=
| detail_absent
| detail_text (s : jsstring)
| detail_items (items : list FieldError)
| detail_other.

(** The answer of the service to a call: a value, or an error. *)
Inductive Outcome (A : Type) :=
| resolved (a : A)
| thrown (detail : Detail).
Arguments resolved {A} a.
Arguments thrown {A} detail.

(** [msgs.join(', ')] *)
Fixpoint join (msgs : list jsstring) : jsstring :=
  match msgs with
  | [] => []
  | [m] => m
  | m :: rest => m ++ lit ", " ++ join rest
  end.

(** The message a thunk rejects with: the detail when it is a non-empty
    string, else the thunk's fallback text. *)
Definition message_or (fallback : jsstring) (d : Detail) : jsstring :=
  match d with
  | detail_text s => or_else s fallback
  | _ => fallback
  end.

(** The message of [createQuery], which also joins a list of field errors:
    [detail.map(err => err.msg || err).join(', ')]. *)
Definition createQuery_message (d : Detail) : jsstring :=
  match d with
  | detail_items items => join (field_message <$> items)
  | _ => message_or (lit "Failed to create query") d
  end.

(** An interval timer of the browser: its handle, the [pollingQueryId] its
    callback has captured and its period in milliseconds. *)
Record Timer := {
  handle : nat;
  watched : Z;
  delay : Z
}.

(** The component with its surroundings: the Redux store, the four pieces of
    [useState], the cleanup function the polling effect returned last (the
    handle it clears), the active interval timers, the next handle
    [setInterval] hands out, and the calls made so far. *)
Record World := {
  store : QueryState;
  queryText : jsstring;
  queryType : jsstring;
  ticker : jsstring;
  pollingQueryId : option Z;
  cleanup : option nat;
  timers : list Timer;
  nextHandle : nat;
  log : list Call
}.

Definition with_store (s : QueryState) (w : World) : World :=
  {| store := s; queryText := queryText w; queryType := queryType w;
     ticker := ticker w; pollingQueryId := pollingQueryId w;
     cleanup := cleanup w; timers := timers w; nextHandle := nextHandle w;
     log := log w |}.

Definition with_log (l : list Call) (w : World) : World :=
  {| store := store w; queryText := queryText w; queryType := queryType w;
     ticker := ticker w; pollingQueryId := pollingQueryId w;
     cleanup := cleanup w; timers := timers w; nextHandle := nextHandle w;
     log := l |}.

Definition with_form (text type tick : jsstring) (w : World) : World :=
  {| store := store w; queryText := text; queryType := type;
     ticker := tick; pollingQueryId := pollingQueryId w;
     cleanup := cleanup w; timers := timers w; nextHandle := nextHandle w;
     log := log w |}.

Definition with_polling (p : option Z) (w : World) : World :=
  {| store := store w; queryText := queryText w; queryType := queryType w;
     ticker := ticker w; pollingQueryId := p;
     cleanup := cleanup w; timers := timers w; nextHandle := nextHandle w;
     log := log w |}.

Definition with_timers (c : option nat) (ts : list Timer) (n : nat)
    (w : World) : World :=
  {| store := store w; queryText := queryText w; queryType := queryType w;
     ticker := ticker w; pollingQueryId := pollingQueryId w;
     cleanup := c; timers := ts; nextHandle := n;
     log := log w |}.

Definition dispatch (a : Action) (w : World) : World :=
  with_store (reducer (store w) a) w.

Definition call (c : Call) (w : World) : World :=
  with_log (log w ++ [c]) w.

(** *** The thunks of the slice, run against an answer of the service *)

Definition createQuery (data : QueryCreate) (answer : Outcome Query)
    (w : World) : World :=
  let w := call (api_createQuery data) (dispatch createQuery_pending w) in
  match answer with
  | resolved q => dispatch (createQuery_fulfilled q) w
  | thrown d => dispatch (createQuery_rejected (createQuery_message d)) w
  end.

Definition fetchQueries (skip limit : Z) (answer : Outcome QueryListResponse)
    (w : World) : World :=
  let w := call (api_getQueries skip limit) (dispatch fetchQueries_pending w) in
  match answer with
  | resolved r => dispatch (fetchQueries_fulfilled r) w
  | thrown d =>
      dispatch (fetchQueries_rejected
                  (message_or (lit "Failed to fetch queries") d)) w
  end.

Definition fetchQuery (query_id : Z) (answer : Outcome Query)
    (w : World) : World :=
  let w := call (api_getQuery query_id) (dispatch fetchQuery_pending w) in
  match answer with
  | resolved q => dispatch (fetchQuery_fulfilled q) w
  | thrown d =>
      dispatch (fetchQuery_rejected
                  (message_or (lit "Failed to fetch query") d)) w
  end.

(** *** The polling effect *)

(** [!pollingQueryId]: [null] is falsy, and so is the number [0]. *)
Definition falsy (p : option Z) : bool :=
  match p with
  | None => true
  | Some n => n =? 0
  end.

(** [clearInterval(h)] *)
Definition clearInterval (h : nat) (ts : list Timer) : list Timer :=
  filter (fun t => handle t <> h) ts.

(** The cleanup function of the effect: [() => clearInterval(pollInterval)]. *)
Definition effect_cleanup (w : World) : World :=
  match cleanup w with
  | None => w
  | Some h => with_timers None (clearInterval h (timers w)) (nextHandle w) w
  end.

(** The body of the effect: no timer for a falsy id, else
    [setInterval(..., 2000)] and the cleanup that clears it. *)
Definition effect_setup (w : World) : World :=
  match pollingQueryId w with
  | Some n =>
      if falsy (Some n) then with_timers None (timers w) (nextHandle w) w
      else
        with_timers (Some (nextHandle w))
          (timers w ++ [{| handle := nextHandle w; watched := n;
                           delay := 2000 |}])
          (S (nextHandle w)) w
  | None => with_timers None (timers w) (nextHandle w) w
  end.

(** The worlds [setPollingQueryId(p)] goes through.  React keeps the state
    and does not run the effect again when the value is the one it has
    ([Object.is]); else it stores the value, runs the cleanup of the previous
    effect and then the effect.  The three steps are taken before the next
    timer callback runs. *)
Definition setPollingQueryId_steps (p : option Z) (w : World) : list World :=
  if decide (pollingQueryId w = p) then []
  else
    let w1 := with_polling p w in
    let w2 := effect_cleanup w1 in
    let w3 := effect_setup w2 in
    [w1; w2; w3].

Definition setPollingQueryId (p : option Z) (w : World) : World :=
  List.last (setPollingQueryId_steps p w) w.

(** The component after its first render: empty form, nothing polled, the
    effect has run once and returned early. *)
Definition mount (s : QueryState) : World :=
  effect_setup
    {| store := s; queryText := []; queryType := lit "general";
       ticker := []; pollingQueryId := None; cleanup := None;
       timers := []; nextHandle := 0%nat; log := [] |}.

(** [arm]: the watch is started by [setPollingQueryId(id)]. *)
Definition arm (query_id : Z) (w : World) : World :=
  setPollingQueryId (Some query_id) w.

(** The world after a sequence of changes of [pollingQueryId]. *)
Definition polling_run (ps : list (option Z)) (w : World) : World :=
  foldl (fun w p => setPollingQueryId p w) w ps.

(** Every world passed during that sequence, in order. *)
Fixpoint polling_trace (ps : list (option Z)) (w : World) : list World :=
  match ps with
  | [] => []
  | p :: rest =>
      setPollingQueryId_steps p w ++ polling_trace rest (setPollingQueryId p w)
  end.

(** The callback of the interval, from the answer to [fetchQuery] on: a
    fetched terminal query stops the polling and refreshes the history. *)
Definition pollInterval_callback (query_id : Z) (fetched : Outcome Query)
    (listed : Outcome QueryListResponse) (w : World) : World :=
  let w := fetchQuery query_id fetched w in
  match fetched with
  | resolved query =>
      if terminal (status query)
      then fetchQueries 0 20 listed (setPollingQueryId None w)
      else w
  | thrown _ => w
  end.

(** A run of ticks that all fail. *)
Fixpoint failed_ticks (query_id : Z) (errors : list Detail) (w : World)
    : World :=
  match errors with
  | [] => w
  | d :: rest =>
      failed_ticks query_id rest
        (pollInterval_callback query_id (thrown d) (thrown detail_absent) w)
  end.

(** *** Submission *)

Definition handleSubmit (created : Outcome Query)
    (listed : Outcome QueryListResponse) (w : World) : World :=
  if negb (truthy (trim (queryText w))) then w
  else if bool_decide (queryType w = lit "analyze")
          && negb (truthy (trim (ticker w)))
  then
    call (window_alert
            (lit "Please enter a ticker symbol for stock analysis")) w
  else
    let data :=
      {| qc_query_text := queryText w;
         qc_query_type := queryType w;
         qc_ticker :=
           if bool_decide (queryType w = lit "analyze")
           then Some (or_else (ticker w) (lit "AAPL"))
           else None |} in
    let w := createQuery data created w in
    let w :=
      match created with
      | resolved q =>
          setPollingQueryId (Some (id q)) (fetchQueries 0 20 listed w)
      | thrown _ => w
      end in
    with_form [] (queryType w) [] w.

(** *** [handleSubmit], one stretch at a time

    [handleSubmit] waits twice, for [createQuery] and for [fetchQueries].
    What happens to the component in between (a callback of the interval,
    a key typed) finds the world the stretch before has left, and the next
    stretch starts from the world it leaves. *)

(** Up to the first wait: the checks, then [createQuery] is started with
    the request built from the form.  No request when the form is
    refused. *)
Definition handleSubmit_start (w : World) : World * option QueryCreate :=
  if negb (truthy (trim (queryText w))) then (w, None)
  else if bool_decide (queryType w = lit "analyze")
          && negb (truthy (trim (ticker w)))
  then
    (call (window_alert
             (lit "Please enter a ticker symbol for stock analysis")) w,
     None)
  else
    let data :=
      {| qc_query_text := queryText w;
         qc_query_type := queryType w;
         qc_ticker :=
           if bool_decide (queryType w = lit "analyze")
           then Some (or_else (ticker w) (lit "AAPL"))
           else None |} in
    (call (api_createQuery data) (dispatch createQuery_pending w),
     Some data).

(** From the answer of [createQuery] to the second wait, where
    [fetchQueries] has been started, or to the end when the query was not
    created. *)
Definition handleSubmit_created (answer : Outcome Query) (w : World)
    : World :=
  match answer with
  | resolved q =>
      call (api_getQueries 0 20)
        (dispatch fetchQueries_pending
           (dispatch (createQuery_fulfilled q) w))
  | thrown d =>
      with_form [] (queryType w) []
        (dispatch (createQuery_rejected (createQuery_message d)) w)
  end.

(** From the answer of [fetchQueries] to the end: the polling of the
    created query is started and the form is emptied. *)
Definition handleSubmit_listed (q : Query)
    (answer : Outcome QueryListResponse) (w : World) : World :=
  let w :=
    match answer with
    | resolved r => dispatch (fetchQueries_fulfilled r) w
    | thrown d =>
        dispatch (fetchQueries_rejected
                    (message_or (lit "Failed to fetch queries") d)) w
    end in
  with_form [] (queryType w) [] (setPollingQueryId (Some (id q)) w).

(** The two ways [handleSubmit] refuses the form: no text once trimmed, or
    an analysis with no ticker once trimmed. *)
Definition refused (w : World) : Prop :=
  truthy (trim (queryText w)) = false \/
  (queryType w = lit "analyze" /\ truthy (trim (ticker w)) = false).

(** The polling bookkeeping is consistent: no timer, no cleanup and a falsy
    [pollingQueryId], or one timer of period 2000 for the polled non-zero
    id, which the cleanup clears. *)
Definition poll_ok (w : World) : bool :=
  match timers w with
  | [] => bool_decide (cleanup w = None) && falsy (pollingQueryId w)
  | [t] =>
      bool_decide (cleanup w = Some (handle t))
      && bool_decide (pollingQueryId w = Some (watched t))
      && negb (watched t =? 0)
      && (delay t =? 2000)
  | _ => false
  end.

(** What happens to the mounted component: the user edits the form, submits
    it, or a callback of the interval runs to its end (for the id it has
    captured, which is the polled one unless the watch was replaced while
    the request was in flight). *)
Inductive Event :=
| typed (text type tick : jsstring)
| submitted (created : Outcome Query) (listed : Outcome QueryListResponse)
| ticked (query_id : Z) (fetched : Outcome Query)
    (listed : Outcome QueryListResponse).

Definition step (w : World) (e : Event) : World :=
  match e with
  | typed text type tick => with_form text type tick w
  | submitted created listed => handleSubmit created listed w
  | ticked query_id fetched listed =>
      pollInterval_callback query_id fetched listed w
  end.

(** The world after a sequence of events, from the first render on. *)
Definition after_events (s : QueryState) (events : list Event) : World :=
  foldl step (mount s) events.

End QueryInput.

(** ** [components/dashboard/QueryHistory.tsx] *)
Module QueryHistory.

(** Arrays are objects: the component holds a reference to the array of the
    store, and [filter], the spread and [sort] are modelled on a heap of
    arrays. *)
Abbreviation ref := nat (only parsing).
Abbreviation Heap := (gmap nat (list Query)) (only parsing).

(** A new array. *)
Definition alloc (a : list Query) (h : Heap) : Heap * ref :=
  let r := fresh (dom h) in (<[r := a]> h, r).

Definition contents (r : ref) (h : Heap) : list Query :=
  default [] (h !! r).

(** [sortBy: 'newest' | 'oldest' | 'ticker'] *)
Inductive SortBy := newest | oldest | by_ticker.

(** The two string functions of the runtime the component calls:
    [String.prototype.toLowerCase], the case mapping of Unicode, and
    [String.prototype.localeCompare], the collation of the locale.  They
    are parameters of the component. *)
Record Runtime := {
  rt_toLowerCase : jsstring -> jsstring;
  rt_localeCompare : jsstring -> jsstring -> Z
}.

(** The runtime that maps the ASCII letters and compares code units, for
    the examples. *)
Definition code_units : Runtime :=
  {| rt_toLowerCase := toLowerCase; rt_localeCompare := localeCompare |}.

(** What [sort] asks of a comparator: the sign of the result flips with
    the arguments, and not being after is transitive. *)
Definition consistent (collate : jsstring -> jsstring -> Z) : Prop :=
  (forall a b, Z.sgn (collate b a) = - Z.sgn (collate a b)) /\
  (forall a b c, collate a b <= 0 -> collate b c <= 0 -> collate a c <= 0).

(** The predicate of [queries.filter(...)]. *)
Definition search_match_in (rt : Runtime) (searchTerm : jsstring)
    (query : Query) : bool :=
  let searchLower := rt_toLowerCase rt searchTerm in
  includes (rt_toLowerCase rt (query_text query)) searchLower
  || match Types.ticker query with
     | Some t => includes (rt_toLowerCase rt t) searchLower
     | None => false
     end.

Definition search_match : jsstring -> Query -> bool :=
  search_match_in code_units.

(** [q.ticker || ''] *)
Definition ticker_or_empty (q : Query) : jsstring :=
  match Types.ticker q with
  | Some t => or_else t []
  | None => []
  end.

(** The comparator handed to [sort]. *)
Definition compareFn_in (rt : Runtime) (sortBy : SortBy) (a b : Query)
    : Z :=
  match sortBy with
  | newest => created_at b - created_at a
  | oldest => created_at a - created_at b
  | by_ticker =>
      rt_localeCompare rt (ticker_or_empty a) (ticker_or_empty b)
  end.

Definition compareFn : SortBy -> Query -> Query -> Z :=
  compareFn_in code_units.

(** [Array.prototype.sort] is stable: elements keep their order unless the
    comparator puts the later one strictly first.  Insertion from the right
    computes that result. *)
Fixpoint sort_insert (cmp : Query -> Query -> Z) (x : Query)
    (l : list Query) : list Query :=
  match l with
  | [] => [x]
  | y :: l' =>
      if cmp x y <=? 0 then x :: l else y :: sort_insert cmp x l'
  end.

Definition sorted (cmp : Query -> Query -> Z) (l : list Query)
    : list Query :=
  foldr (sort_insert cmp) [] l.

(** [a.filter(f)]: a new array. *)
Definition array_filter (f : Query -> bool) (a : ref) (h : Heap)
    : Heap * ref :=
  alloc (filter (fun q => f q) (contents a h)) h.

(** [[...a]]: a new array with the same elements. *)
Definition array_spread (a : ref) (h : Heap) : Heap * ref :=
  alloc (contents a h) h.

(** [a.sort(cmp)]: sorts [a] in place and returns it. *)
Definition array_sort (cmp : Query -> Query -> Z) (a : ref) (h : Heap)
    : Heap * ref :=
  (<[a := sorted cmp (contents a h)]> h, a).

(** [filteredQueries] and [sortedQueries] of the component, from the
    reference [queries] to the array of the store. *)
Definition sortedQueries_in (rt : Runtime) (searchTerm : jsstring)
    (sortBy : SortBy) (queries : ref) (h : Heap) : Heap * ref :=
  let '(h1, filteredQueries) :=
    array_filter (search_match_in rt searchTerm) queries h in
  let '(h2, copy) := array_spread filteredQueries h1 in
  array_sort (compareFn_in rt sortBy) copy h2.

Definition sortedQueries : jsstring -> SortBy -> ref -> Heap -> Heap * ref :=
  sortedQueries_in code_units.

(** The rows [sortedQueries] shows, as a function of the rows of the store. *)
Definition sorted_rows_in (rt : Runtime) (searchTerm : jsstring)
    (sortBy : SortBy) (rows : list Query) : list Query :=
  sorted (compareFn_in rt sortBy)
    (filter (fun q => search_match_in rt searchTerm q) rows).

Definition sorted_rows : jsstring -> SortBy -> list Query -> list Query :=
  sorted_rows_in code_units.

(** A job with an empty or absent ticker. *)
Definition no_ticker (q : Query) : bool :=
  negb (truthy (ticker_or_empty q)).

(** [l] splits into [l1 ++ x :: l2 ++ y :: l3]: [x] comes before [y]. *)
Definition before (x y : Query) (l : list Query) : Prop :=
  exists l1 l2 l3, l = l1 ++ x :: l2 ++ y :: l3.

End QueryHistory.

(** ** Sample data *)
Module Samples.
Import QuerySlice.

(** A query with the given id, status, ticker and creation time. *)
Definition job (i : Z) (st : Status) (tk : option jsstring) (at_ : Z)
    : Query :=
  {| id := i; user_id := 1; query_text := lit "What is RSI?";
     query_type := lit "general"; ticker := tk; result := None;
     status := st; error_message := None; created_at := at_;
     completed_at := None |}.

(** The store showing the single query [q]. *)
Definition showing (q : Query) : QueryState :=
  {| queries := [q]; currentQuery := Some q; comparisonData := None;
     total := 1; loading := false; error := None |}.

(** A comparison payload. *)
Definition comparison : any := lit "{tickers: [AAPL, MSFT]}".

End Samples.

(** ** The rest of [components/dashboard/QueryHistory.tsx] *)
Module HistoryView.
Import QuerySlice QueryInput.

(** [query.query_text || query.ticker || 'No query text'], cut to 45 code
    units and an ellipsis when it is longer. *)
Definition displayText (query : Query) : jsstring :=
  let text_or_ticker : option jsstring :=
    if truthy (query_text query) then Some (query_text query)
    else Types.ticker query in
  let queryText :=
    match text_or_ticker with
    | Some s => or_else s (lit "No query text")
    | None => lit "No query text"
    end in
  if (45 <? length queryText)%nat
  then take 45 queryText ++ lit "..."
  else queryText.

(** [currentQuery?.id === query.id] *)
Definition isActive (state : QueryState) (query : Query) : bool :=
  match currentQuery state with
  | Some q => id q =? id query
  | None => false
  end.

(** What the handlers of the history do outside the store. *)
Inductive HistoryCall :=
| window_confirm (message : jsstring)
| service_deleteQuery (query_id : Z)
| service_getQuery (query_id : Z)
| service_getQueries (skip limit : Z).

(** The store with the calls made so far. *)
Record HistoryWorld := {
  hstore : QueryState;
  hlog : list HistoryCall
}.

Definition hdispatch (a : Action) (w : HistoryWorld) : HistoryWorld :=
  {| hstore := reducer (hstore w) a; hlog := hlog w |}.

Definition hcall (c : HistoryCall) (w : HistoryWorld) : HistoryWorld :=
  {| hstore := hstore w; hlog := hlog w ++ [c] |}.

(** The thunk [deleteQuery], run against the answer of the service. *)
Definition deleteQuery (query_id : Z) (answer : Outcome unit)
    (w : HistoryWorld) : HistoryWorld :=
  let w := hcall (service_deleteQuery query_id)
             (hdispatch deleteQuery_pending w) in
  match answer with
  | resolved _ => hdispatch (deleteQuery_fulfilled query_id) w
  | thrown d =>
      hdispatch (deleteQuery_rejected
                   (message_or (lit "Failed to delete query") d)) w
  end.

(** [handleDelete]: the deletion is dispatched when the user confirms. *)
Definition handleDelete (query_id : Z) (confirmed : bool)
    (answer : Outcome unit) (w : HistoryWorld) : HistoryWorld :=
  let w := hcall (window_confirm (lit "Delete this query?")) w in
  if confirmed then deleteQuery query_id answer w else w.

(** [handleQueryClick]: the clicked row is fetched again by its id. *)
Definition handleQueryClick (query : Query) (answer : Outcome Query)
    (w : HistoryWorld) : HistoryWorld :=
  let w := hcall (service_getQuery (id query))
             (hdispatch fetchQuery_pending w) in
  match answer with
  | resolved q => hdispatch (fetchQuery_fulfilled q) w
  | thrown d =>
      hdispatch (fetchQuery_rejected
                   (message_or (lit "Failed to fetch query") d)) w
  end.

(** [handleRefresh], also the effect run when the history is mounted. *)
Definition handleRefresh (answer : Outcome QueryListResponse)
    (w : HistoryWorld) : HistoryWorld :=
  let w := hcall (service_getQueries 0 20)
             (hdispatch fetchQueries_pending w) in
  match answer with
  | resolved r => hdispatch (fetchQueries_fulfilled r) w
  | thrown d =>
      hdispatch (fetchQueries_rejected
                   (message_or (lit "Failed to fetch queries") d)) w
  end.

End HistoryView.

(** ** [formatRelativeTime] of [utils/formatters.ts] *)
Module Formatters.

(** The decimal digits of a number, as a template literal prints it. *)
Definition decimal (n : Z) : jsstring :=
  lit (NilZero.string_of_int (Z.to_int n)).

(** The result: a text, or, for a date older than a week, what
    [toLocaleDateString] of the runtime makes of the date, with the year
    when asked. *)
Inductive RelativeTime :=
| text (s : jsstring)
| locale_date (date : Z) (with_year : bool).

(** [formatRelativeTime], from the instants of [now] and of the date in
    milliseconds; [getFullYear] is the calendar of the runtime.  The
    differences are whole numbers, on which the division of the source
    followed by [Math.floor] is the division rounding down. *)
Definition formatRelativeTime (getFullYear : Z -> Z) (now date : Z)
    : RelativeTime :=
  let diffInSeconds := (now - date) / 1000 in
  if diffInSeconds <? 60 then text (lit "Just now")
  else if diffInSeconds <? 3600
  then text (decimal (diffInSeconds / 60) ++ lit "m ago")
  else if diffInSeconds <? 86400
  then text (decimal (diffInSeconds / 3600) ++ lit "h ago")
  else if diffInSeconds <? 604800
  then text (decimal (diffInSeconds / 86400) ++ lit "d ago")
  else locale_date date (negb (getFullYear date =? getFullYear now)).

End Formatters.

(** ** The result panel of [components/dashboard/Dashboard.tsx] *)
Module Dashboard.
Import QuerySlice.

(** What the panel renders. *)
Inductive Panel :=
| RAGResultDisplay (result : any)
| ComparisonDisplay (comparison : any)
| ResultDisplay (query : Query)
| NoAnalysisYet.

(** The chain of conditionals of the panel: the RAG result on the third
    view, else the comparison, else the current query. *)
Definition resultPanel (activeView : Z) (ragResult : option any)
    (state : QueryState) : Panel :=
  match (if activeView =? 2 then ragResult else None) with
  | Some r => RAGResultDisplay r
  | None =>
      match comparisonData state with
      | Some c => ComparisonDisplay c
      | None =>
          match currentQuery state with
          | Some q => ResultDisplay q
          | None => NoAnalysisYet
          end
      end
  end.

(** The title of the panel. *)
Definition panelTitle (activeView : Z) (state : QueryState) : jsstring :=
  if activeView =? 2 then lit "RAG Query Results"
  else match comparisonData state with
       | Some _ => lit "Stock Comparison"
       | None => lit "Analysis Results"
       end.

(** The status chip next to the title, shown for the current query. *)
Definition statusChip (activeView : Z) (state : QueryState)
    : option Status :=
  match currentQuery state with
  | Some q => if activeView =? 2 then None else Some (status q)
  | None => None
  end.

End Dashboard.

(** ** [store/authSlice.ts] with [services/authService.ts] *)
Module AuthSlice.
Import QueryInput.

(** [interface User] *)
Record User := {
  u_id : Z;
  email : jsstring;
  username : jsstring;
  full_name : option jsstring;
  is_active : bool;
  u_created_at : jsstring
}.

(** [interface AuthTokens] *)
Record AuthTokens := {
  access_token : jsstring;
  refresh_token : jsstring;
  token_type : jsstring
}.

(** [interface AuthState] *)
Record AuthState := {
  user : option User;
  isAuthenticated : bool;
  loading : bool;
  error : option jsstring
}.

(** The two items of [localStorage] the service uses. *)
Record Storage := {
  stored_access : option jsstring;
  stored_refresh : option jsstring
}.

(** The slice state with the storage its [logout] reducer reaches. *)
Record Session := {
  auth : AuthState;
  storage : Storage
}.

(** [authService.isAuthenticated()]: [!!localStorage.getItem(...)]. *)
Definition service_isAuthenticated (s : Storage) : bool :=
  match stored_access s with
  | Some t => truthy t
  | None => false
  end.

(** [authService.logout()] *)
Definition service_logout (s : Storage) : Storage :=
  {| stored_access := None; stored_refresh := None |}.

Definition initialState (s : Storage) : AuthState :=
  {| user := None; isAuthenticated := service_isAuthenticated s;
     loading := false; error := None |}.

Inductive Action :=
| logout
| clearError
| login_pending
| login_fulfilled (payload : User)
| login_rejected (payload : jsstring)
| register_pending
| register_fulfilled (payload : User)
| register_rejected (payload : jsstring)
| loadUser_pending
| loadUser_fulfilled (payload : User)
| loadUser_rejected (payload : jsstring).

(** The slice reducer; [logout] also empties the storage. *)
Definition reducer (s : Session) (action : Action) : Session :=
  let state := auth s in
  match action with
  | logout =>
      {| auth := {| user := None; isAuthenticated := false;
                    loading := loading state; error := error state |};
         storage := service_logout (storage s) |}
  | clearError =>
      {| auth := {| user := user state;
                    isAuthenticated := isAuthenticated state;
                    loading := loading state; error := None |};
         storage := storage s |}
  | login_pending | register_pending =>
      {| auth := {| user := user state;
                    isAuthenticated := isAuthenticated state;
                    loading := true; error := None |};
         storage := storage s |}
  | login_fulfilled payload =>
      {| auth := {| user := Some payload; isAuthenticated := true;
                    loading := false; error := error state |};
         storage := storage s |}
  | login_rejected payload | register_rejected payload =>
      {| auth := {| user := user state;
                    isAuthenticated := isAuthenticated state;
                    loading := false; error := Some payload |};
         storage := storage s |}
  | register_fulfilled _ =>
      {| auth := {| user := user state;
                    isAuthenticated := isAuthenticated state;
                    loading := false; error := error state |};
         storage := storage s |}
  | loadUser_pending => s
  | loadUser_fulfilled payload =>
      {| auth := {| user := Some payload; isAuthenticated := true;
                    loading := loading state; error := error state |};
         storage := storage s |}
  | loadUser_rejected _ =>
      {| auth := {| user := None; isAuthenticated := false;
                    loading := loading state; error := error state |};
         storage := storage s |}
  end.

Definition run (s : Session) (actions : list Action) : Session :=
  foldl reducer s actions.

(** The session when the application is loaded with the storage [st]. *)
Definition start (st : Storage) : Session :=
  {| auth := initialState st; storage := st |}.

(** The message of [login] and [register]: a list of field errors is
    joined, a non-empty string is kept, anything else gives the fallback. *)
Definition auth_message (fallback : jsstring) (d : Detail) : jsstring :=
  match d with
  | detail_items items => join (field_message <$> items)
  | _ => message_or fallback d
  end.

(** The answer of the server to one request: the data, or an error with
    the status of the response (none when no response came) and its
    detail. *)
Inductive Reply (A : Type) :=
| reply_ok (a : A)
| reply_error (status : option Z) (d : Detail).
Arguments reply_ok {A} a.
Arguments reply_error {A} status d.

(** The data of [POST /auth/refresh]: [access_token] and, when the server
    sends one, [refresh_token]. *)
Record Refreshed := {
  new_access : jsstring;
  new_refresh : option jsstring
}.

(** What the server answers while one call of the service goes through
    [api]: to the request, to the refresh of the token the interceptor may
    ask for, and to the request sent again after the refresh. *)
Record Exchange (A : Type) := {
  first : Reply A;
  refresh : Reply Refreshed;
  again : Reply A
}.
Arguments first {A} e.
Arguments refresh {A} e.
Arguments again {A} e.

(** What the caller of the service gets, the storage afterwards, and
    whether the page was sent to [/login]. *)
Record Answered (A : Type) := {
  outcome : Outcome A;
  storage_after : Storage;
  redirected : bool
}.
Arguments outcome {A} a.
Arguments storage_after {A} a.
Arguments redirected {A} a.

(** [localStorage.getItem(key)] as a condition. *)
Definition stored (item : option jsstring) : bool :=
  match item with
  | Some t => truthy t
  | None => false
  end.

(** A request through [api] ([services/api.ts]).  The response interceptor
    passes a response on.  On an error of status 401 it looks for a refresh
    token: with one, it asks for new tokens; given them, it stores the
    access token, the refresh token too when one came, and sends the
    request again, whose answer is final (the request is marked [_retry]);
    refused, it removes both tokens, sends the page to [/login] and rejects
    with the error of the refresh.  Any other error is passed on. *)
Definition request {A : Type} (x : Exchange A) (st : Storage)
    : Answered A :=
  match first x with
  | reply_ok a =>
      {| outcome := resolved a; storage_after := st; redirected := false |}
  | reply_error status d =>
      if bool_decide (status = Some 401) && stored (stored_refresh st) then
        match refresh x with
        | reply_ok r =>
            let st' :=
              {| stored_access := Some (new_access r);
                 stored_refresh :=
                   if stored (new_refresh r) then new_refresh r
                   else stored_refresh st |} in
            {| outcome :=
                 match again x with
                 | reply_ok a => resolved a
                 | reply_error _ d' => thrown d'
                 end;
               storage_after := st'; redirected := false |}
        | reply_error _ d' =>
            {| outcome := thrown d';
               storage_after := service_logout st; redirected := true |}
        end
      else {| outcome := thrown d; storage_after := st;
              redirected := false |}
  end.

(** The reducer on the slice state, with another storage. *)
Definition settle (action : Action) (st : Storage) (s : Session) : Session :=
  {| auth := auth (reducer s action); storage := st |}.

(** The thunk [login]: [authService.login] stores the tokens the server
    answers with, then [authService.getCurrentUser] asks for the user; an
    error of either request rejects.  Both requests go through [api]. *)
Definition login (tokens : Exchange AuthTokens) (me : Exchange User)
    (s : Session) : Session :=
  let s := reducer s login_pending in
  let posted := request tokens (storage s) in
  match outcome posted with
  | thrown d =>
      settle (login_rejected (auth_message (lit "Login failed") d))
        (storage_after posted) s
  | resolved t =>
      let st := {| stored_access := Some (access_token t);
                   stored_refresh := Some (refresh_token t) |} in
      let asked := request me st in
      match outcome asked with
      | resolved u => settle (login_fulfilled u) (storage_after asked) s
      | thrown d =>
          settle (login_rejected (auth_message (lit "Login failed") d))
            (storage_after asked) s
      end
  end.

End AuthSlice.

(** ** [handleCompare] of [components/dashboard/StockComparison.tsx] *)
Module StockComparison.
Import QuerySlice QueryInput.

(** [s.split(',')] *)
Fixpoint split_comma (s : jsstring) : list jsstring :=
  match s with
  | [] => [[]]
  | c :: s' =>
      if (c =? 44)%N then [] :: split_comma s'
      else
        match split_comma s' with
        | piece :: pieces => (c :: piece) :: pieces
        | [] => [[c]]
        end
  end.

(** [s.toUpperCase()], on the ASCII letters; other code units are kept. *)
Definition toUpperCase (s : jsstring) : jsstring :=
  (fun c => if ((97 <=? c) && (c <=? 122))%N then (c - 32)%N else c) <$> s.

(** The [error] of the component: a text ([''] when there is none), or the
    detail of a failed request when that is not a string. *)
Inductive CompareError :=
| error_text (s : jsstring)
| error_detail (d : Detail).

(** The request [api.post('/ai/compare', {tickers, period})]. *)
Inductive CompareCall :=
| post_compare (tickers : list jsstring) (period : jsstring).

(** The payload handed to [setComparisonData]:
    [{comparison: comparisonResult, period: '6mo'}]. *)
Definition comparison_payload (comparisonResult : any) : any :=
  lit "{comparison:" ++ comparisonResult ++ lit ",period:6mo}".

(** The component (its four pieces of [useState]) with the store and the
    requests made so far. *)
Record CompareWorld := {
  cstore : QueryState;
  tickers : jsstring;
  cloading : bool;
  comparisonLocal : any;
  cerror : CompareError;
  clog : list CompareCall
}.

(** [tickers.split(',').map(t => t.trim().toUpperCase())
      .filter(t => t.length > 0)] *)
Definition tickerList (s : jsstring) : list jsstring :=
  filter (fun t => (0 < length t)%nat)
    ((fun t => toUpperCase (trim t)) <$> split_comma s).

(** [err.response?.data?.detail || 'Failed to compare stocks']; a detail
    that is neither absent nor a string is an array or an object, which
    is truthy and is kept. *)
Definition compare_error (d : Detail) : CompareError :=
  match d with
  | detail_absent => error_text (lit "Failed to compare stocks")
  | detail_text s => error_text (or_else s (lit "Failed to compare stocks"))
  | _ => error_detail d
  end.

Definition handleCompare (answer : Outcome any) (w : CompareWorld)
    : CompareWorld :=
  let list := tickerList (tickers w) in
  if (length list <? 2)%nat || (5 <? length list)%nat then
    {| cstore := cstore w; tickers := tickers w; cloading := cloading w;
       comparisonLocal := comparisonLocal w;
       cerror := error_text
                   (lit "Please enter 2-5 tickers separated by commas");
       clog := clog w |}
  else
    let log := clog w ++ [post_compare list (lit "6mo")] in
    match answer with
    | resolved comparisonResult =>
        {| cstore := reducer (cstore w)
                       (setComparisonData
                          (Some (comparison_payload comparisonResult)));
           tickers := tickers w; cloading := false;
           comparisonLocal := comparisonResult;
           cerror := error_text []; clog := log |}
    | thrown d =>
        {| cstore := cstore w; tickers := tickers w; cloading := false;
           comparisonLocal := comparisonLocal w;
           cerror := compare_error d; clog := log |}
    end.

End StockComparison.

(** * Properties of the slice *)
Section SliceProperties.
Import QuerySlice Samples.

Lemma findIndex_Some (i : Z) (qs : list Query) (index : nat) :
  findIndex i qs = Some index <->
  exists q, qs !! index = Some q /\ id q = i /\
    forall j y, qs !! j = Some y -> (j < index)%nat -> id y <> i.
Proof.
  unfold findIndex. split.
  - intros H. destruct (list_find _ qs) as [[k q]|] eqn:E; simplify_eq/=.
    apply list_find_Some in E. exists q. naive_solver.
  - intros (q & H1 & H2 & H3).
    assert (list_find (fun q => id q = i) qs = Some (index, q)) as ->; [|done].
    apply list_find_Some. naive_solver.
Qed.

Lemma findIndex_None (i : Z) (qs : list Query) :
  findIndex i qs = None <-> Forall (fun q => id q <> i) qs.
Proof.
  unfold findIndex. split.
  - intros H. apply (list_find_None (fun q => id q = i)).
    by destruct (list_find _ qs) as [[k q]|].
  - intros H. apply (list_find_None (fun q => id q = i)) in H. by rewrite H.
Qed.

(** Every action but [fetchQuery.fulfilled] leaves at most one of the two
    display slots occupied. *)
Lemma exclusive_step (state : QueryState) (action : Action) :
  both_shown state = false ->
  (forall payload, action <> fetchQuery_fulfilled payload) ->
  both_shown (reducer state action) = false.
Proof.
  intros H Hne. unfold both_shown in *.
  destruct action; simpl; try done;
    try (by destruct (Hne payload));
    by destruct (currentQuery state), (comparisonData state).
Qed.

(** [fetchQuery.fulfilled] on a store that shows a comparison leaves both
    slots occupied, whatever the fetched job. *)
Lemma fetchQuery_fulfilled_keeps_comparison (state : QueryState)
    (payload : Query) (c : any) :
  comparisonData state = Some c ->
  both_shown (reducer state (fetchQuery_fulfilled payload)) = true.
Proof. intros H. unfold both_shown. simpl. by rewrite H. Qed.

(** C1.  The exclusivity of the display slots does not hold for the store:
    after [setComparisonData] with a payload, [fetchQuery.fulfilled] (a poll
    tick, or a click on a row of the history) sets [currentQuery] and keeps
    [comparisonData], so both slots are occupied. *)
Theorem C1_fetchQuery_fulfilled_fills_both_slots :
  let state :=
    run initialState
      [setComparisonData (Some comparison);
       fetchQuery_fulfilled (job 1 completed None 0)] in
  currentQuery state = Some (job 1 completed None 0) /\
  comparisonData state = Some comparison /\
  both_shown state = true.
Proof. repeat split. Qed.

(** C3, as stated, fails: a store whose job 1 is completed, in the list and
    in the focus, is sent [fetchQuery.fulfilled] with a pending job 1; the
    row and the focus are pending afterwards. *)
Lemma C3_counterexample :
  let before := showing (job 1 completed None 0) in
  let after := reducer before (fetchQuery_fulfilled (job 1 pending None 0)) in
  status <$> queries before !! 0%nat = Some completed /\
  status <$> currentQuery before = Some completed /\
  status <$> queries after !! 0%nat = Some pending /\
  status <$> currentQuery after = Some pending.
Proof. repeat split. Qed.

(** C3, amended.  [fetchQuery.fulfilled] writes the status of the fetched
    job: when that status is terminal, every row that was terminal is still
    a terminal row of the same id and the focus is terminal; when it is
    pending, the row found for the id and the focus are pending, whatever
    they were. *)
Theorem C3_terminal_kept_iff_fetched_terminal
    (state : QueryState) (payload : Query) :
  let after := reducer state (fetchQuery_fulfilled payload) in
  (terminal (status payload) = true ->
     (forall i q, queries state !! i = Some q ->
        terminal (status q) = true ->
        exists q', queries after !! i = Some q' /\ id q' = id q /\
                   terminal (status q') = true) /\
     (exists q', currentQuery after = Some q' /\
                 terminal (status q') = true)) /\
  (status payload = pending ->
     (forall index, findIndex (id payload) (queries state) = Some index ->
        status <$> queries after !! index = Some pending) /\
     status <$> currentQuery after = Some pending).
Proof.
  simpl. split.
  - intros Hterm. split; [|by eexists].
    intros i q Hi Hq.
    destruct (findIndex _ _) as [index|] eqn:E; [|by eexists].
    apply findIndex_Some in E as (q0 & H0 & Hid & _).
    destruct (decide (index = i)) as [->|Hne].
    + exists payload. rewrite list_lookup_insert_eq by (by eapply lookup_lt_Some).
      split; [done|]. split; [congruence|done].
    + exists q. by rewrite list_lookup_insert_ne.
  - intros Hp. split; [|by rewrite <- Hp].
    intros index E. rewrite E.
    apply findIndex_Some in E as (q0 & H0 & _).
    rewrite list_lookup_insert_eq by (by eapply lookup_lt_Some).
    simpl. by rewrite Hp.
Qed.

Lemma C3_witness :
  let state := showing (job 1 pending None 0) in
  (exists q', currentQuery (reducer state
                (fetchQuery_fulfilled (job 1 completed None 0))) = Some q' /\
              terminal (status q') = true) /\
  status <$> currentQuery (reducer (showing (job 1 completed None 0))
               (fetchQuery_fulfilled (job 1 pending None 0))) = Some pending.
Proof.
  split.
  - apply (C3_terminal_kept_iff_fetched_terminal
             (showing (job 1 pending None 0)) (job 1 completed None 0)).
    reflexivity.
  - apply (C3_terminal_kept_iff_fetched_terminal
             (showing (job 1 completed None 0)) (job 1 pending None 0)).
    reflexivity.
Defined.

(** C4, as stated, fails twice: with job 2 in the focus, a fetched job 1
    takes the focus; and a fetched job whose id is in no row changes the
    store, it becomes the focus. *)
Lemma C4_counterexample :
  let q1 := job 1 pending None 0 in
  let q2 := job 2 pending None 0 in
  let state :=
    {| queries := [q2; q1]; currentQuery := Some q2; comparisonData := None;
       total := 2; loading := false; error := None |} in
  (id <$> currentQuery state = Some 2 /\
   id <$> currentQuery
            (reducer state (fetchQuery_fulfilled (job 1 completed None 0)))
     = Some 1) /\
  (findIndex 7 (queries initialState) = None /\
   reducer initialState (fetchQuery_fulfilled (job 7 pending None 0))
     <> initialState).
Proof. repeat split. discriminate. Qed.

(** C4, amended.  [fetchQuery.fulfilled] always makes the fetched job the
    focus, whatever the focus was; in the list it replaces the first row
    with the id of the fetched job and no other row, adds no row, and
    leaves the list as it is when no row has that id; the comparison
    payload, the total, the busy flag and the error are kept. *)
Theorem C4_fetchQuery_fulfilled_effect
    (state : QueryState) (payload : Query) :
  let after := reducer state (fetchQuery_fulfilled payload) in
  currentQuery after = Some payload /\
  length (queries after) = length (queries state) /\
  (forall index, findIndex (id payload) (queries state) = Some index ->
     queries after !! index = Some payload /\
     forall j, j <> index -> queries after !! j = queries state !! j) /\
  (findIndex (id payload) (queries state) = None ->
     queries after = queries state) /\
  comparisonData after = comparisonData state /\
  total after = total state /\
  loading after = loading state /\
  error after = error state.
Proof.
  simpl. split; [done|].
  destruct (findIndex _ _) as [index|] eqn:E.
  - split; [by rewrite length_insert|].
    split; [|done].
    intros ? [= <-]. apply findIndex_Some in E as (q0 & H0 & _).
    split.
    + apply list_lookup_insert_eq. by eapply lookup_lt_Some.
    + intros j Hj. by apply list_lookup_insert_ne.
  - repeat split; done.
Qed.

Lemma C4_witness :
  queries (reducer initialState (fetchQuery_fulfilled (job 7 pending None 0)))
  = queries initialState /\
  queries (reducer (showing (job 1 pending None 0))
             (fetchQuery_fulfilled (job 1 completed None 0))) !! 0%nat
  = Some (job 1 completed None 0).
Proof.
  split.
  - apply (C4_fetchQuery_fulfilled_effect initialState
             (job 7 pending None 0)).
    reflexivity.
  - apply (C4_fetchQuery_fulfilled_effect (showing (job 1 pending None 0))
             (job 1 completed None 0)).
    reflexivity.
Defined.

(** C5, as stated, fails: job 1 is in the focus and is deleted; it leaves
    the list and the total drops, but it stays in the focus. *)
Lemma C5_counterexample :
  let state := showing (job 1 completed None 0) in
  let after := reducer state (deleteQuery_fulfilled 1) in
  id <$> currentQuery state = Some 1 /\
  queries after = [] /\
  total after = total state - 1 /\
  currentQuery after = Some (job 1 completed None 0).
Proof. repeat split. Qed.

(** C5, amended.  [deleteQuery.fulfilled] removes the rows with the deleted
    id and only them, keeping the order of the others, and takes 1 from the
    total; the focus is kept as it is, also when it is the deleted job. *)
Theorem C5_deleteQuery_fulfilled_effect (state : QueryState) (i : Z) :
  let after := reducer state (deleteQuery_fulfilled i) in
  (forall q, q ∈ queries after <-> q ∈ queries state /\ id q <> i) /\
  queries after `sublist_of` queries state /\
  total after = total state - 1 /\
  currentQuery after = currentQuery state /\
  comparisonData after = comparisonData state.
Proof.
  simpl. split; [|split; [apply sublist_filter|done]].
  intros q. rewrite list_elem_of_filter. tauto.
Qed.

Lemma C5_witness :
  job 2 pending None 0 ∈
    queries (reducer
               {| queries := [job 1 completed None 0; job 2 pending None 0];
                  currentQuery := Some (job 1 completed None 0);
                  comparisonData := None; total := 2; loading := false;
                  error := None |}
               (deleteQuery_fulfilled 1)) /\
  currentQuery (reducer (showing (job 1 completed None 0))
                  (deleteQuery_fulfilled 1))
  = Some (job 1 completed None 0).
Proof.
  split.
  - apply (C5_deleteQuery_fulfilled_effect
             {| queries := [job 1 completed None 0; job 2 pending None 0];
                currentQuery := Some (job 1 completed None 0);
                comparisonData := None; total := 2; loading := false;
                error := None |} 1).
    split; [|discriminate].
    apply list_elem_of_further, list_elem_of_here.
  - apply (C5_deleteQuery_fulfilled_effect
             (showing (job 1 completed None 0)) 1).
Defined.

(** C10.  A successful delete takes exactly 1 from the total: also when no
    row has the deleted id, in which case the list is unchanged, and also at
    a total of 0, which becomes negative. *)
Theorem C10_delete_always_decrements (state : QueryState) (i : Z) :
  let after := reducer state (deleteQuery_fulfilled i) in
  total after = total state - 1 /\
  (Forall (fun q => id q <> i) (queries state) ->
     queries after = queries state /\ total after = total state - 1) /\
  (total state = 0 -> total after = -1).
Proof.
  simpl. split; [done|]. split.
  - intros H. split; [|done].
    induction H as [|q l Hq Hl IH]; [done|].
    rewrite filter_cons_True by done. by f_equal.
  - lia.
Qed.

Lemma C10_witness :
  queries (reducer initialState (deleteQuery_fulfilled 7)) = [] /\
  total (reducer initialState (deleteQuery_fulfilled 7)) = -1.
Proof.
  destruct (C10_delete_always_decrements initialState 7) as (_ & H1 & H2).
  split.
  - apply H1. constructor.
  - apply H2. reflexivity.
Defined.

End SliceProperties.

(** * Properties of the polling effect and of submission *)
Section PollProperties.
Import QuerySlice Samples QueryInput.

Lemma poll_ok_cases (w : World) :
  poll_ok w = true <->
  (timers w = [] /\ cleanup w = None /\ falsy (pollingQueryId w) = true) \/
  (exists t, timers w = [t] /\ cleanup w = Some (handle t) /\
     pollingQueryId w = Some (watched t) /\ watched t <> 0 /\
     delay t = 2000).
Proof.
  unfold poll_ok. destruct (timers w) as [|t [|t' ts]].
  - rewrite andb_true_iff, bool_decide_eq_true. split.
    + intros [? ?]. by left.
    + intros [(_ & ? & ?)|(t & ? & _)]; done.
  - rewrite !andb_true_iff, !bool_decide_eq_true, negb_true_iff,
      Z.eqb_neq, Z.eqb_eq.
    split.
    + intros (((? & ?) & ?) & ?). right. by exists t.
    + intros [(? & _)|(t0 & [= <-] & ? & ? & ? & ?)]; done.
  - split; [done|]. intros [(? & _)|(t0 & ? & _)]; done.
Qed.

Lemma poll_ok_mount (s : QueryState) : poll_ok (mount s) = true.
Proof. reflexivity. Qed.

(** What [setPollingQueryId] does to a consistent world, step by step. *)
Lemma setPollingQueryId_spec (p : option Z) (w : World) :
  poll_ok w = true ->
  pollingQueryId w <> p ->
  exists w1 w2 w3,
    setPollingQueryId_steps p w = [w1; w2; w3] /\
    setPollingQueryId p w = w3 /\
    timers w1 = timers w /\
    timers w2 = [] /\
    timers w3 =
      (if falsy p then []
       else [{| handle := nextHandle w; watched := default 0 p;
                delay := 2000 |}]) /\
    pollingQueryId w3 = p /\
    store w3 = store w /\ log w3 = log w /\
    poll_ok w3 = true.
Proof.
  intros Hok Hne. unfold setPollingQueryId, setPollingQueryId_steps.
  destruct (decide (pollingQueryId w = p)) as [|_]; [done|].
  do 3 eexists. split; [reflexivity|]. split; [reflexivity|].
  split; [reflexivity|].
  apply poll_ok_cases in Hok.
  destruct w as [st text type tick pq cl ts nh lg]. simpl in *.
  assert (effect_cleanup (with_polling p (Build_World st text type tick pq
                                            cl ts nh lg))
          = Build_World st text type tick p None [] nh lg) as ->.
  { unfold effect_cleanup, with_polling, with_timers. simpl.
    destruct Hok as [(-> & -> & _)|(t & -> & -> & _)]; simpl; [done|].
    unfold clearInterval. by rewrite filter_cons_False by auto. }
  split; [done|].
  unfold effect_setup, with_timers, poll_ok. simpl.
  destruct p as [n|]; simpl; [|done].
  destruct (n =? 0) eqn:E; simpl; [by rewrite E|].
  by rewrite E, !bool_decide_eq_true_2.
Qed.

Lemma setPollingQueryId_same (p : option Z) (w : World) :
  pollingQueryId w = p ->
  setPollingQueryId_steps p w = [] /\ setPollingQueryId p w = w.
Proof.
  intros H. unfold setPollingQueryId, setPollingQueryId_steps.
  by destruct (decide (pollingQueryId w = p)).
Qed.

Lemma poll_ok_timers (w : World) :
  poll_ok w = true -> (length (timers w) <= 1)%nat.
Proof.
  intros [(-> & _)|(t & -> & _)]%poll_ok_cases; simpl; lia.
Qed.

Lemma poll_ok_setPollingQueryId (p : option Z) (w : World) :
  poll_ok w = true ->
  poll_ok (setPollingQueryId p w) = true /\
  Forall (fun w' => (length (timers w') <= 1)%nat)
    (setPollingQueryId_steps p w).
Proof.
  intros Hok. destruct (decide (pollingQueryId w = p)) as [He|Hne].
  - destruct (setPollingQueryId_same p w He) as [-> ->]. by split.
  - destruct (setPollingQueryId_spec p w Hok Hne)
      as (w1 & w2 & w3 & -> & -> & H1 & H2 & H3 & _ & _ & _ & H4).
    split; [done|].
    apply Forall_cons_2; [|apply Forall_cons_2; [|apply Forall_cons_2]].
    + rewrite H1. by apply poll_ok_timers.
    + rewrite H2. simpl. lia.
    + by apply poll_ok_timers.
    + constructor.
Qed.

Lemma poll_ok_polling_run (ps : list (option Z)) (w : World) :
  poll_ok w = true -> poll_ok (polling_run ps w) = true.
Proof.
  revert w. induction ps as [|p ps IH]; intros w Hok; [done|].
  simpl. apply IH. by apply poll_ok_setPollingQueryId.
Qed.

Lemma polling_trace_timers (ps : list (option Z)) (w : World) :
  poll_ok w = true ->
  Forall (fun w' => (length (timers w') <= 1)%nat) (polling_trace ps w).
Proof.
  revert w. induction ps as [|p ps IH]; intros w Hok; [constructor|].
  simpl. destruct (poll_ok_setPollingQueryId p w Hok) as [Hok' Hsteps].
  apply Forall_app. split; [done|]. by apply IH.
Qed.

(** The thunks and the form touch neither the timers nor the polled id. *)
Lemma poll_ok_createQuery data answer (w : World) :
  poll_ok (createQuery data answer w) = poll_ok w.
Proof. by destruct answer. Qed.

Lemma poll_ok_fetchQueries skip limit answer (w : World) :
  poll_ok (fetchQueries skip limit answer w) = poll_ok w.
Proof. by destruct answer. Qed.

Lemma poll_ok_fetchQuery query_id answer (w : World) :
  poll_ok (fetchQuery query_id answer w) = poll_ok w.
Proof. by destruct answer. Qed.

Lemma poll_ok_callback query_id fetched listed (w : World) :
  poll_ok w = true ->
  poll_ok (pollInterval_callback query_id fetched listed w) = true.
Proof.
  intros Hok. unfold pollInterval_callback.
  destruct fetched as [query|d]; [|by rewrite poll_ok_fetchQuery].
  destruct (terminal (status query)); [|by rewrite poll_ok_fetchQuery].
  rewrite poll_ok_fetchQueries. apply poll_ok_setPollingQueryId.
  by rewrite poll_ok_fetchQuery.
Qed.

Lemma poll_ok_handleSubmit created listed (w : World) :
  poll_ok w = true -> poll_ok (handleSubmit created listed w) = true.
Proof.
  intros Hok. unfold handleSubmit.
  destruct (negb (truthy (trim (queryText w)))); [done|].
  destruct (_ && _); [done|].
  change (poll_ok (with_form ?a ?b ?c ?w)) with (poll_ok w).
  destruct created as [q|d]; [|by rewrite poll_ok_createQuery].
  apply poll_ok_setPollingQueryId.
  by rewrite poll_ok_fetchQueries, poll_ok_createQuery.
Qed.

(** The bookkeeping is consistent in every world the component reaches. *)
Lemma poll_ok_after_events (s : QueryState) (events : list Event) :
  poll_ok (after_events s events) = true.
Proof.
  unfold after_events.
  induction events as [|e events IH] using rev_ind; [done|].
  rewrite foldl_app. simpl. destruct e; simpl.
  - done.
  - by apply poll_ok_handleSubmit.
  - by apply poll_ok_callback.
Qed.

(** C2, as stated, fails for the id 0: the effect returns early on a falsy
    [pollingQueryId], so arming job 0 while job 1 is watched cancels the
    timer of job 1 and starts none. *)
Lemma C2_counterexample :
  let w := arm 1 (mount initialState) in
  timers w = [{| handle := 0; watched := 1; delay := 2000 |}] /\
  pollingQueryId (arm 0 w) = Some 0 /\
  timers (arm 0 w) = [].
Proof. repeat split. Qed.

(** C2, amended.  Through every sequence of changes of [pollingQueryId]
    (arming an id, or the [null] of a terminal tick), each world passed, the
    steps between the cleanup and the setup of the effect included, has at
    most one active timer.  Arming a non-zero id [B] leaves exactly one
    timer, for [B], of period 2000; when another job [A] was watched, the
    change goes through three worlds: the timer of [A] still alone, no timer
    once the cleanup has run, the timer of [B] alone once the effect has
    run.  Arming the id 0 leaves no timer. *)
Theorem C2_single_watch (s : QueryState) (ps : list (option Z)) (B : Z) :
  let w := polling_run ps (mount s) in
  Forall (fun w' => (length (timers w') <= 1)%nat)
    (mount s :: polling_trace (ps ++ [Some B]) (mount s)) /\
  (B <> 0 ->
     (exists tB, timers (arm B w) = [tB] /\ watched tB = B /\
                 delay tB = 2000) /\
     (forall tA, timers w = [tA] -> watched tA <> B ->
        exists w1 w2 w3 tB,
          setPollingQueryId_steps (Some B) w = [w1; w2; w3] /\
          arm B w = w3 /\
          timers w1 = [tA] /\ timers w2 = [] /\
          timers w3 = [tB] /\ watched tB = B)) /\
  (B = 0 -> timers (arm B w) = []).
Proof.
  intros w.
  assert (poll_ok w = true) as Hok
    by apply poll_ok_polling_run, poll_ok_mount.
  split; [|split].
  - apply Forall_cons_2; [simpl; lia|].
    apply polling_trace_timers, poll_ok_mount.
  - intros HB. split.
    + unfold arm.
      destruct (decide (pollingQueryId w = Some B)) as [He|Hne].
      * destruct (setPollingQueryId_same _ w He) as [_ ->].
        apply poll_ok_cases in Hok
          as [(_ & _ & Hf)|(t & Ht & _ & Hp & _ & Hd)].
        -- rewrite He in Hf. simpl in Hf. apply Z.eqb_eq in Hf. done.
        -- exists t. rewrite He in Hp. by simplify_eq.
      * destruct (setPollingQueryId_spec _ w Hok Hne)
          as (w1 & w2 & w3 & _ & -> & _ & _ & H3 & _).
        simpl in H3. apply Z.eqb_neq in HB. rewrite HB in H3.
        by eexists.
    + intros tA HtA HA. unfold arm.
      assert (pollingQueryId w <> Some B) as Hne.
      { apply poll_ok_cases in Hok
          as [(Ht & _)|(t & Ht & _ & Hp & _)]; [congruence|].
        rewrite Hp. rewrite HtA in Ht. congruence. }
      destruct (setPollingQueryId_spec _ w Hok Hne)
        as (w1 & w2 & w3 & Hs & -> & H1 & H2 & H3 & _).
      simpl in H3. apply Z.eqb_neq in HB. rewrite HB in H3.
      exists w1, w2, w3. eexists. rewrite H1, HtA. done.
  - intros ->. unfold arm.
    destruct (decide (pollingQueryId w = Some 0)) as [He|Hne].
    + destruct (setPollingQueryId_same _ w He) as [_ ->].
      apply poll_ok_cases in Hok as [(Ht & _)|(t & _ & _ & Hp & H0 & _)];
        [done|].
      rewrite He in Hp. by simplify_eq.
    + by destruct (setPollingQueryId_spec _ w Hok Hne)
        as (w1 & w2 & w3 & _ & -> & _ & _ & H3 & _).
Qed.

Lemma C2_witness :
  (exists tB, timers (arm 2 (polling_run [Some 1] (mount initialState)))
              = [tB] /\ watched tB = 2 /\ delay tB = 2000) /\
  (exists w1 w2 w3 tB,
     setPollingQueryId_steps (Some 2)
       (polling_run [Some 1] (mount initialState)) = [w1; w2; w3] /\
     arm 2 (polling_run [Some 1] (mount initialState)) = w3 /\
     timers w1 = [{| handle := 0; watched := 1; delay := 2000 |}] /\
     timers w2 = [] /\
     timers w3 = [tB] /\ watched tB = 2) /\
  timers (arm 0 (polling_run [Some 1] (mount initialState))) = [].
Proof.
  split; [|split].
  - apply (C2_single_watch initialState [Some 1] 2). lia.
  - apply (C2_single_watch initialState [Some 1] 2);
      [lia | reflexivity | simpl; lia].
  - apply (C2_single_watch initialState [Some 1] 0). reflexivity.
Defined.

Lemma fetchQuery_fields query_id answer (w : World) :
  timers (fetchQuery query_id answer w) = timers w /\
  cleanup (fetchQuery query_id answer w) = cleanup w /\
  pollingQueryId (fetchQuery query_id answer w) = pollingQueryId w /\
  log (fetchQuery query_id answer w) = log w ++ [api_getQuery query_id].
Proof. by destruct answer. Qed.

Lemma fetchQueries_fields skip limit answer (w : World) :
  timers (fetchQueries skip limit answer w) = timers w /\
  cleanup (fetchQueries skip limit answer w) = cleanup w /\
  pollingQueryId (fetchQueries skip limit answer w) = pollingQueryId w /\
  log (fetchQueries skip limit answer w)
  = log w ++ [api_getQueries skip limit].
Proof. by destruct answer. Qed.

(** A tick whose fetch fails changes nothing but the log of calls. *)
Lemma failed_tick query_id d listed (w : World) :
  let w' := pollInterval_callback query_id (thrown d) listed w in
  store w' = store w /\ timers w' = timers w /\ cleanup w' = cleanup w /\
  pollingQueryId w' = pollingQueryId w.
Proof. by destruct w. Qed.

(** C6.  In every world the component reaches with a timer [t] active, the
    callback of [t] that fetches a completed or failed job leaves no timer,
    sets [pollingQueryId] to [null] and then requests the first 20 rows of
    the history; the callback that fetches a pending job leaves [t] in
    place, with its period of 2000 ms, and the polled id as it was. *)
Theorem C6_terminal_tick_stops_polling (s : QueryState)
    (events : list Event) (t : Timer) (query : Query)
    (listed : Outcome QueryListResponse) :
  timers (after_events s events) = [t] ->
  let w := after_events s events in
  let w' := pollInterval_callback (watched t) (resolved query) listed w in
  (terminal (status query) = true ->
     timers w' = [] /\ cleanup w' = None /\ pollingQueryId w' = None /\
     log w' = log w ++ [api_getQuery (watched t); api_getQueries 0 20]) /\
  (status query = pending ->
     timers w' = [t] /\ delay t = 2000 /\
     pollingQueryId w' = Some (watched t) /\
     log w' = log w ++ [api_getQuery (watched t)]).
Proof.
  pose proof (poll_ok_after_events s events) as Hok.
  generalize dependent (after_events s events). intros w Hok Ht w0 w'.
  pose proof (proj1 (poll_ok_cases w) Hok)
    as [(Hnil & _)|(t0 & Ht0 & Hc & Hp & Hz & Hd)]; [congruence|].
  assert (t0 = t) as -> by congruence.
  destruct (fetchQuery_fields (watched t) (resolved query) w)
    as (F1 & F2 & F3 & F4).
  subst w0 w'. unfold pollInterval_callback. split.
  - intros ->.
    assert (poll_ok (fetchQuery (watched t) (resolved query) w) = true)
      as Hok1 by (by rewrite poll_ok_fetchQuery).
    assert (pollingQueryId (fetchQuery (watched t) (resolved query) w)
            <> None) as Hne by congruence.
    destruct (setPollingQueryId_spec None _ Hok1 Hne)
      as (u1 & u2 & u3 & _ & -> & _ & _ & H3 & H4 & _ & H5 & H6).
    simpl in H3.
    destruct (fetchQueries_fields 0 20 listed u3) as (G1 & G2 & G3 & G4).
    rewrite G1, G2, G3, G4, H3, H4, H5, F4.
    apply poll_ok_cases in H6 as [(_ & -> & _)|(? & ? & _)]; [|congruence].
    by rewrite <- app_assoc.
  - intros Hs. rewrite Hs. cbn [terminal]. by rewrite F1, F3, F4.
Qed.

Lemma C6_witness :
  let w :=
    after_events initialState
      [typed (lit "What is RSI?") (lit "general") [];
       submitted (resolved (job 1 pending None 0))
         (resolved {| lr_total := 1;
                      lr_queries := [job 1 pending None 0] |})] in
  timers w = [{| handle := 0; watched := 1; delay := 2000 |}] /\
  timers (pollInterval_callback 1 (resolved (job 1 completed None 0))
            (thrown detail_absent) w) = [] /\
  timers (pollInterval_callback 1 (resolved (job 1 pending None 0))
            (thrown detail_absent) w)
  = [{| handle := 0; watched := 1; delay := 2000 |}].
Proof.
  split; [reflexivity|]. split.
  - apply (C6_terminal_tick_stops_polling initialState
             [typed (lit "What is RSI?") (lit "general") [];
              submitted (resolved (job 1 pending None 0))
                (resolved {| lr_total := 1;
                             lr_queries := [job 1 pending None 0] |})]
             {| handle := 0; watched := 1; delay := 2000 |}
             (job 1 completed None 0) (thrown detail_absent));
      reflexivity.
  - apply (C6_terminal_tick_stops_polling initialState
             [typed (lit "What is RSI?") (lit "general") [];
              submitted (resolved (job 1 pending None 0))
                (resolved {| lr_total := 1;
                             lr_queries := [job 1 pending None 0] |})]
             {| handle := 0; watched := 1; delay := 2000 |}
             (job 1 pending None 0) (thrown detail_absent));
      reflexivity.
Defined.

(** C7.  A tick whose fetch fails, whatever the error, leaves the timers,
    the cleanup and the polled id as they are and changes nothing in the
    store, so the error slot keeps its value; the same holds after any
    number of failing ticks. *)
Theorem C7_failed_ticks_are_swallowed (w : World) (query_id : Z)
    (errors : list Detail) :
  let w' := failed_ticks query_id errors w in
  timers w' = timers w /\
  cleanup w' = cleanup w /\
  pollingQueryId w' = pollingQueryId w /\
  store w' = store w /\
  error (store w') = error (store w).
Proof.
  revert w. induction errors as [|d errors IH]; intros w; [done|].
  cbv zeta in *. cbn [failed_ticks].
  destruct (IH (pollInterval_callback query_id (thrown d)
                  (thrown detail_absent) w)) as (H1 & H2 & H3 & H4 & H5).
  destruct (failed_tick query_id d (thrown detail_absent) w)
    as (G1 & G2 & G3 & G4).
  rewrite H1, H2, H3, H4. rewrite G1, G2, G3, G4. done.
Qed.

(** C8, as stated, fails: an empty text, and an analysis without ticker,
    are refused without any call to the network, but nothing is written to
    the store: the error slot stays empty, and a busy flag that was set
    stays set. *)
Lemma C8_counterexample :
  let w0 := mount initialState in
  let w1 := with_form (lit "Should I buy now?") (lit "analyze") (lit "  ")
              (mount (reducer initialState fetchQueries_pending)) in
  let answer := resolved (job 1 pending None 0) in
  (log (handleSubmit answer (thrown detail_absent) w0) = [] /\
   error (store (handleSubmit answer (thrown detail_absent) w0)) = None) /\
  (filter (fun c => is_network c)
     (log (handleSubmit answer (thrown detail_absent) w1)) = [] /\
   error (store (handleSubmit answer (thrown detail_absent) w1)) = None /\
   loading (store (handleSubmit answer (thrown detail_absent) w1)) = true).
Proof. repeat split. Qed.

(** C8, amended.  A form with no text once trimmed, or an analysis with no
    ticker once trimmed, is refused before [createQuery] is dispatched: no
    network call is made, and the store is left as it is, busy flag and
    error slot included; the form, the polled id and the timers are kept
    too.  The form with no text is refused silently, nothing is added to
    the calls; the form with a text, an analysis with no ticker, is refused
    by one alert. *)
Theorem C8_refused_submission_leaves_store (created : Outcome Query)
    (listed : Outcome QueryListResponse) (w : World) :
  refused w ->
  let w' := handleSubmit created listed w in
  store w' = store w /\
  filter (fun c => is_network c) (log w')
  = filter (fun c => is_network c) (log w) /\
  (truthy (trim (queryText w)) = false -> log w' = log w) /\
  (truthy (trim (queryText w)) = true ->
   log w' = log w ++ [window_alert
              (lit "Please enter a ticker symbol for stock analysis")]) /\
  queryText w' = queryText w /\ ticker w' = ticker w /\
  pollingQueryId w' = pollingQueryId w /\ timers w' = timers w.
Proof.
  intros Href. cbv zeta. unfold handleSubmit.
  destruct (truthy (trim (queryText w))) eqn:Etext; simpl.
  - destruct Href as [?|[Htype Htick]]; [congruence|].
    rewrite bool_decide_eq_true_2, Htick by done. simpl.
    rewrite filter_app, filter_cons_False, filter_nil, app_nil_r by auto.
    repeat split; auto. done.
  - repeat split; auto. done.
Qed.

Lemma C8_witness :
  store (handleSubmit (resolved (job 1 pending None 0)) (thrown detail_absent)
           (mount initialState)) = initialState /\
  log (handleSubmit (resolved (job 1 pending None 0)) (thrown detail_absent)
         (mount initialState)) = [] /\
  log (handleSubmit (resolved (job 1 pending None 0)) (thrown detail_absent)
         (with_form (lit "Should I buy now?") (lit "analyze") []
            (mount initialState)))
  = [window_alert (lit "Please enter a ticker symbol for stock analysis")].
Proof.
  split; [|split].
  - apply (C8_refused_submission_leaves_store
             (resolved (job 1 pending None 0)) (thrown detail_absent)
             (mount initialState)).
    left. reflexivity.
  - apply (C8_refused_submission_leaves_store
             (resolved (job 1 pending None 0)) (thrown detail_absent)
             (mount initialState)); [left|]; reflexivity.
  - apply (C8_refused_submission_leaves_store
             (resolved (job 1 pending None 0)) (thrown detail_absent)
             (with_form (lit "Should I buy now?") (lit "analyze") []
                (mount initialState))); [right; split|]; reflexivity.
Defined.

Lemma setPollingQueryId_log (p : option Z) (w : World) :
  log (setPollingQueryId p w) = log w.
Proof.
  unfold setPollingQueryId, setPollingQueryId_steps.
  destruct (decide _); [done|]. simpl.
  unfold effect_setup, effect_cleanup. simpl.
  destruct (cleanup w); simpl; destruct p as [k|]; simpl; try done;
    by destruct (k =? 0).
Qed.

Lemma createQuery_log data answer (w : World) :
  log (createQuery data answer w) = log w ++ [api_createQuery data].
Proof. by destruct answer. Qed.

(** A form that is not refused does reach the network: [createQuery] is
    called with the text and type of the form. *)
Lemma accepted_submission_calls_createQuery (created : Outcome Query)
    (listed : Outcome QueryListResponse) (w : World) :
  truthy (trim (queryText w)) = true ->
  queryType w <> lit "analyze" ->
  exists rest,
    log (handleSubmit created listed w)
    = log w ++ api_createQuery
                 {| qc_query_text := queryText w;
                    qc_query_type := queryType w;
                    qc_ticker := None |} :: rest.
Proof.
  intros Htext Htype. unfold handleSubmit.
  rewrite Htext, bool_decide_eq_false_2 by done. cbn [negb andb].
  change (log (with_form ?a ?b ?c ?w)) with (log w).
  destruct created as [q|d].
  - rewrite setPollingQueryId_log.
    destruct (fetchQueries_fields 0 20 listed
                (createQuery {| qc_query_text := queryText w;
                                qc_query_type := queryType w;
                                qc_ticker := None |} (resolved q) w))
      as (_ & _ & _ & ->).
    rewrite createQuery_log, <- app_assoc. by eexists.
  - rewrite createQuery_log. by eexists.
Qed.

End PollProperties.

(** * Properties of the history projection *)
Section SortProperties.
Import QuerySlice Samples QueryHistory.

Lemma localeCompare_flip (a b : jsstring) :
  localeCompare b a = - localeCompare a b.
Proof.
  revert b. induction a as [|x a IH]; intros [|y b]; simpl; try done.
  rewrite (N.compare_antisym x y).
  destruct (x ?= y)%N; simpl; [apply IH|done|done].
Qed.

Lemma localeCompare_trans (a b c : jsstring) :
  localeCompare a b <= 0 -> localeCompare b c <= 0 ->
  localeCompare a c <= 0.
Proof.
  revert b c. induction a as [|x a IH]; intros [|y b] [|z c]; simpl;
    try lia.
  destruct (N.compare_spec x y), (N.compare_spec y z),
    (N.compare_spec x z); try lia; subst; try lia.
  apply IH.
Qed.

Lemma localeCompare_empty (a : jsstring) :
  localeCompare a [] <= 0 -> a = [].
Proof. destruct a; simpl; [done|lia]. Qed.

Lemma localeCompare_consistent : consistent localeCompare.
Proof.
  split.
  - intros a b. rewrite localeCompare_flip. apply Z.sgn_opp.
  - apply localeCompare_trans.
Qed.

(** What the comparators order by. *)
Lemma compareFn_total (rt : Runtime) (sortBy : SortBy) (a b : Query) :
  consistent (rt_localeCompare rt) ->
  ~ compareFn_in rt sortBy a b <= 0 -> compareFn_in rt sortBy b a <= 0.
Proof.
  intros [Hsgn _]. destruct sortBy; simpl; try lia.
  specialize (Hsgn (ticker_or_empty a) (ticker_or_empty b)). lia.
Qed.

Lemma compareFn_trans (rt : Runtime) (sortBy : SortBy) (a b c : Query) :
  consistent (rt_localeCompare rt) ->
  compareFn_in rt sortBy a b <= 0 -> compareFn_in rt sortBy b c <= 0 ->
  compareFn_in rt sortBy a c <= 0.
Proof.
  intros [_ Htrans]. destruct sortBy; simpl; try lia. apply Htrans.
Qed.

Section Sorting.
Variable cmp : Query -> Query -> Z.
Hypothesis cmp_total : forall a b, ~ cmp a b <= 0 -> cmp b a <= 0.
Hypothesis cmp_trans :
  forall a b c, cmp a b <= 0 -> cmp b c <= 0 -> cmp a c <= 0.

Lemma sort_insert_perm (x : Query) (l : list Query) :
  sort_insert cmp x l ≡ₚ x :: l.
Proof.
  induction l as [|y l IH]; simpl; [done|].
  destruct (cmp x y <=? 0); [done|].
  rewrite IH. apply Permutation_swap.
Qed.

Lemma sorted_perm (l : list Query) : sorted cmp l ≡ₚ l.
Proof.
  induction l as [|x l IH]; simpl; [done|].
  fold (sorted cmp l). by rewrite sort_insert_perm, IH.
Qed.

Lemma sort_insert_sorted (x : Query) (l : list Query) :
  StronglySorted (fun a b => cmp a b <= 0) l ->
  StronglySorted (fun a b => cmp a b <= 0) (sort_insert cmp x l).
Proof.
  induction 1 as [|y l Hl IH Hy]; simpl.
  - repeat constructor.
  - destruct (Z.leb_spec (cmp x y) 0) as [Hle|Hgt].
    + constructor; [by constructor|].
      constructor; [done|].
      eapply Forall_impl; [exact Hy|]. intros z Hz. by eapply cmp_trans.
    + constructor; [done|].
      rewrite sort_insert_perm. constructor; [|done].
      apply cmp_total. lia.
Qed.

Lemma sorted_sorted (l : list Query) :
  StronglySorted (fun a b => cmp a b <= 0) (sorted cmp l).
Proof.
  induction l as [|x l IH]; simpl; [constructor|].
  by apply sort_insert_sorted.
Qed.

End Sorting.

Lemma StronglySorted_weaken (R S : Query -> Query -> Prop)
    (l : list Query) :
  (forall a b, R a b -> S a b) ->
  StronglySorted R l -> StronglySorted S l.
Proof.
  intros HRS. induction 1 as [|x l Hl IH Hx]; constructor; [done|].
  eapply Forall_impl; [exact Hx|]. auto.
Qed.

Lemma before_sorted (R : Query -> Query -> Prop) (x y : Query)
    (l : list Query) :
  StronglySorted R l -> before x y l -> R x y.
Proof.
  intros Hs (l1 & l2 & l3 & ->).
  apply StronglySorted_app_1_r in Hs.
  apply StronglySorted_inv in Hs as [_ Hall].
  rewrite Forall_forall in Hall. apply Hall. set_solver.
Qed.

(** [sortedQueries] writes to two new arrays only: every array of the heap
    keeps its contents, and the array returned holds the sorted rows. *)
Lemma sortedQueries_heap (rt : Runtime) (searchTerm : jsstring)
    (sortBy : SortBy) (queries : ref) (h : Heap) (rows : list Query) :
  h !! queries = Some rows ->
  (forall a, is_Some (h !! a) ->
     (sortedQueries_in rt searchTerm sortBy queries h).1 !! a = h !! a) /\
  h !! (sortedQueries_in rt searchTerm sortBy queries h).2 = None /\
  (sortedQueries_in rt searchTerm sortBy queries h).1
    !! (sortedQueries_in rt searchTerm sortBy queries h).2
  = Some (sorted_rows_in rt searchTerm sortBy rows).
Proof.
  intros Hq. unfold sortedQueries_in, array_filter, array_spread,
    array_sort, alloc, sorted_rows_in. simpl.
  set (r1 := fresh (dom h)).
  set (a1 := filter _ (contents queries h)).
  set (h1 := <[r1 := a1]> h).
  set (r2 := fresh (dom h1)).
  assert (h !! r1 = None) as Hr1 by apply not_elem_of_dom, is_fresh.
  assert (h1 !! r2 = None) as Hr2 by apply not_elem_of_dom, is_fresh.
  assert (r2 <> r1) as Hne.
  { intros Heq. rewrite Heq in Hr2. unfold h1 in Hr2.
    by rewrite lookup_insert_eq in Hr2. }
  assert (h !! r2 = None) as Hr2'.
  { unfold h1 in Hr2 at 1. by rewrite lookup_insert_ne in Hr2. }
  assert (contents r1 h1 = a1) as Hc1.
  { unfold contents, h1. by rewrite lookup_insert_eq. }
  split; [|split].
  - intros a [x Ha].
    assert (a <> r1) by congruence. assert (a <> r2) by congruence.
    unfold h1. by rewrite !lookup_insert_ne.
  - done.
  - rewrite lookup_insert_eq. f_equal. f_equal.
    unfold contents at 1. rewrite lookup_insert_eq. simpl. rewrite Hc1.
    subst a1. unfold contents. by rewrite Hq.
Qed.

(** C9, as stated, fails on the place of the jobs without ticker: sorted by
    ticker, a job with no ticker comes before the job of ticker AAPL that
    preceded it in the store, not after it.  (The empty string comes before
    AAPL in the collation of every locale, as it does by code units.) *)
Lemma C9_counterexample :
  let aapl := job 1 completed (Some (lit "AAPL")) 10 in
  let plain := job 2 completed None 20 in
  let h : Heap := {[ 0%nat := [aapl; plain] ]} in
  no_ticker plain = true /\ no_ticker aapl = false /\
  contents (sortedQueries [] by_ticker 0%nat h).2
           (sortedQueries [] by_ticker 0%nat h).1 = [plain; aapl] /\
  before plain aapl (sorted_rows [] by_ticker [aapl; plain]).
Proof.
  repeat split; try by vm_compute.
  exists [], [], []. by vm_compute.
Qed.

(** C9, amended.  Whatever the case mapping and the collation of the
    runtime, [sortedQueries] leaves every array of the heap, the one of the
    store included, as it is, and returns a new array holding the rows that
    match the search, each once; sorted by [newest] they are in descending
    order of [created_at], by [oldest] in ascending order.  Sorted by
    [ticker], with a collation that is a consistent comparator, they are in
    the order [localeCompare] gives their tickers, an absent ticker
    counting as the empty string, so that a job whose ticker the collation
    puts after the empty string never comes before a job without ticker:
    the jobs with an empty or absent ticker come first. *)
Theorem C9_sort_projection (rt : Runtime) (searchTerm : jsstring)
    (sortBy : SortBy) (queries : ref) (h : Heap) (rows : list Query) :
  h !! queries = Some rows ->
  let out := sortedQueries_in rt searchTerm sortBy queries h in
  let shown := sorted_rows_in rt searchTerm sortBy rows in
  (forall a, is_Some (h !! a) -> out.1 !! a = h !! a) /\
  out.1 !! queries = Some rows /\
  out.1 !! out.2 = Some shown /\
  shown ≡ₚ filter (fun q => search_match_in rt searchTerm q) rows /\
  (sortBy = newest ->
     StronglySorted (fun a b => created_at b <= created_at a) shown) /\
  (sortBy = oldest ->
     StronglySorted (fun a b => created_at a <= created_at b) shown) /\
  (sortBy = by_ticker -> consistent (rt_localeCompare rt) ->
     StronglySorted
       (fun a b =>
          rt_localeCompare rt (ticker_or_empty a) (ticker_or_empty b) <= 0)
       shown /\
     forall x y, no_ticker x = true ->
       rt_localeCompare rt [] (ticker_or_empty y) < 0 ->
       ~ before y x shown).
Proof.
  intros Hq out shown.
  destruct (sortedQueries_heap rt searchTerm sortBy queries h rows Hq)
    as (Hkeep & _ & Hout).
  assert (consistent (rt_localeCompare rt) \/ sortBy <> by_ticker ->
          StronglySorted (fun a b => compareFn_in rt sortBy a b <= 0) shown)
    as Hs.
  { intros Hc. apply sorted_sorted.
    - intros a b. destruct Hc as [Hc|Hc]; [by apply compareFn_total|].
      destruct sortBy; simpl; try lia. done.
    - intros a b c. destruct Hc as [Hc|Hc]; [by apply compareFn_trans|].
      destruct sortBy; simpl; try lia. done. }
  split; [done|]. split; [by rewrite Hkeep, Hq|]. split; [done|].
  split; [apply sorted_perm|].
  split; [|split].
  - intros ->. eapply StronglySorted_weaken; [|apply Hs; by right].
    simpl. lia.
  - intros ->. eapply StronglySorted_weaken; [|apply Hs; by right].
    simpl. lia.
  - intros -> Hc. specialize (Hs (or_introl Hc)). split; [exact Hs|].
    intros x y Hx Hy Hb.
    pose proof (before_sorted _ y x shown Hs Hb) as Hle. simpl in Hle.
    unfold no_ticker in Hx.
    destruct (ticker_or_empty x); [|done].
    destruct Hc as [Hsgn _].
    specialize (Hsgn [] (ticker_or_empty y)). lia.
Qed.

Lemma C9_witness :
  let aapl := job 1 completed (Some (lit "AAPL")) 10 in
  let plain := job 2 completed None 20 in
  let h : Heap := {[ 0%nat := [aapl; plain] ]} in
  (sortedQueries [] by_ticker 0%nat h).1 !! 0%nat = Some [aapl; plain] /\
  ~ before aapl plain (sorted_rows [] by_ticker [aapl; plain]) /\
  StronglySorted (fun a b => created_at b <= created_at a)
    (sorted_rows [] newest [aapl; plain]) /\
  StronglySorted (fun a b => created_at a <= created_at b)
    (sorted_rows [] oldest [aapl; plain]).
Proof.
  intros aapl plain h.
  assert (h !! 0%nat = Some [aapl; plain]) as Hq by reflexivity.
  destruct (C9_sort_projection code_units [] by_ticker 0%nat h
              [aapl; plain] Hq) as (_ & H1 & _ & _ & _ & _ & H2).
  destruct (C9_sort_projection code_units [] newest 0%nat h
              [aapl; plain] Hq) as (_ & _ & _ & _ & H3 & _ & _).
  destruct (C9_sort_projection code_units [] oldest 0%nat h
              [aapl; plain] Hq) as (_ & _ & _ & _ & _ & H4 & _).
  split; [exact H1|]. split.
  - apply (H2 eq_refl localeCompare_consistent); reflexivity.
  - split; [apply H3 | apply H4]; reflexivity.
Defined.

End SortProperties.

(** * Further properties of the slice *)
Section SliceSequences.
Import QuerySlice Samples.

(** X1.  Along a sequence of actions that holds no [fetchQuery.fulfilled],
    a store that starts with at most one display slot occupied never has
    both occupied. *)
Theorem X1_exclusive_without_fetchQuery (state : QueryState)
    (actions : list Action) :
  both_shown state = false ->
  Forall (fun a => forall payload, a <> fetchQuery_fulfilled payload)
    actions ->
  both_shown (run state actions) = false.
Proof.
  intros Hs Hall. revert state Hs.
  induction Hall as [|a actions Ha Hall IH]; intros state Hs; [done|].
  simpl. apply IH. by apply exclusive_step.
Qed.

Lemma X1_witness :
  both_shown
    (run initialState
       [createQuery_pending; createQuery_fulfilled (job 1 pending None 0);
        setComparisonData (Some comparison);
        createQuery_fulfilled (job 2 pending None 0);
        deleteQuery_fulfilled 1]) = false.
Proof.
  apply (X1_exclusive_without_fetchQuery initialState); [reflexivity|].
  repeat (apply Forall_cons_2; [discriminate|]). constructor.
Defined.

Lemma findIndex_insert (p : Query) (qs : list Query) (index : nat) :
  findIndex (id p) qs = Some index ->
  findIndex (id p) (<[index := p]> qs) = Some index.
Proof.
  intros (q0 & H0 & Hid & Hfirst)%findIndex_Some.
  apply findIndex_Some. exists p. split; [|split; [done|]].
  - apply list_lookup_insert_eq. by eapply lookup_lt_Some.
  - intros j y Hj Hlt. rewrite list_lookup_insert_ne in Hj by lia.
    by eapply Hfirst.
Qed.

(** X2.  [fetchQuery.fulfilled] is idempotent: the same fetched job applied
    a second time changes nothing. *)
Theorem X2_fetchQuery_fulfilled_idempotent (state : QueryState)
    (payload : Query) :
  reducer (reducer state (fetchQuery_fulfilled payload))
    (fetchQuery_fulfilled payload)
  = reducer state (fetchQuery_fulfilled payload).
Proof.
  simpl. destruct (findIndex (id payload) (queries state)) as [index|] eqn:E.
  - rewrite (findIndex_insert _ _ _ E). by rewrite list_insert_insert_eq.
  - by rewrite E.
Qed.

(** X3.  [fetchQuery.fulfilled] keeps the ids of the rows, in their order:
    no row is added, removed or moved, and the row it rewrites keeps its
    id. *)
Theorem X3_fetchQuery_fulfilled_keeps_ids (state : QueryState)
    (payload : Query) :
  id <$> queries (reducer state (fetchQuery_fulfilled payload))
  = id <$> queries state.
Proof.
  simpl. destruct (findIndex _ _) as [index|] eqn:E; [|done].
  apply findIndex_Some in E as (q0 & H0 & Hid & _).
  rewrite list_fmap_insert. apply list_insert_id.
  by rewrite list_lookup_fmap, H0, <- Hid.
Qed.

(** X4.  A fetched job that arrives after its deletion does not bring the
    row back: the list is the one the deletion left, with no row of that
    id.  The deleted job becomes the current query all the same. *)
Theorem X4_late_fetch_after_delete (state : QueryState) (payload : Query) :
  let after :=
    run state [deleteQuery_fulfilled (id payload);
               fetchQuery_fulfilled payload] in
  queries after = queries (reducer state (deleteQuery_fulfilled (id payload)))
  /\ Forall (fun q => id q <> id payload) (queries after)
  /\ currentQuery after = Some payload.
Proof.
  assert (Forall (fun q => id q <> id payload)
            (filter (fun q => id q <> id payload) (queries state))) as Hnone.
  { apply Forall_forall. intros q Hq.
    by apply list_elem_of_filter in Hq as [? _]. }
  simpl. rewrite (proj2 (findIndex_None _ _) Hnone). done.
Qed.

(** X5.  Deleting the same id twice leaves the list as the first deletion
    left it, and takes 2 from the total. *)
Theorem X5_delete_twice (state : QueryState) (i : Z) :
  let once := reducer state (deleteQuery_fulfilled i) in
  let twice := reducer once (deleteQuery_fulfilled i) in
  queries twice = queries once /\
  total twice = total state - 2 /\
  currentQuery twice = currentQuery state.
Proof.
  simpl. split; [|split; [lia|done]].
  rewrite list_filter_filter. apply list_filter_iff. tauto.
Qed.



(** X7.  Only a rejected [createQuery] or [fetchQueries] writes the error
    slot: along any sequence of other actions, failed deletions and failed
    single fetches included, an empty error slot stays empty. *)
Theorem X7_error_only_from_create_and_list (state : QueryState)
    (actions : list Action) :
  error state = None ->
  Forall (fun a => forall m, a <> createQuery_rejected m /\
                             a <> fetchQueries_rejected m) actions ->
  error (run state actions) = None.
Proof.
  intros Hs Hall. revert state Hs.
  induction Hall as [|a actions Ha Hall IH]; intros state Hs; [done|].
  simpl. apply IH. destruct a; simpl; try done; exfalso.
  - by eapply (proj1 (Ha _)).
  - by eapply (proj2 (Ha _)).
Qed.

Lemma X7_witness :
  error (run initialState
           [deleteQuery_pending; deleteQuery_rejected (lit "Not found");
            fetchQuery_pending; fetchQuery_rejected (lit "Not found");
            createQuery_fulfilled (job 1 pending None 0)]) = None.
Proof.
  apply (X7_error_only_from_create_and_list initialState); [reflexivity|].
  repeat (apply Forall_cons_2; [by split|]). constructor.
Defined.

End SliceSequences.

(** * Further properties of submission and polling *)
Section PollExtras.
Import QuerySlice Samples QueryInput.







Lemma trim_truthy (s : jsstring) :
  truthy (trim s) = true -> truthy s = true.
Proof. by destruct s. Qed.

Lemma setPollingQueryId_queryType (p : option Z) (w : World) :
  queryType (setPollingQueryId p w) = queryType w.
Proof.
  unfold setPollingQueryId, setPollingQueryId_steps.
  destruct (decide _); [done|]. simpl.
  unfold effect_setup, effect_cleanup. simpl.
  destruct (cleanup w); simpl; destruct p as [k|]; simpl; try done;
    by destruct (k =? 0).
Qed.

Lemma setPollingQueryId_store (p : option Z) (w : World) :
  store (setPollingQueryId p w) = store w.
Proof.
  unfold setPollingQueryId, setPollingQueryId_steps.
  destruct (decide _); [done|]. simpl.
  unfold effect_setup, effect_cleanup. simpl.
  destruct (cleanup w); simpl; destruct p as [k|]; simpl; try done;
    by destruct (k =? 0).
Qed.

(** The request [handleSubmit] sends for the form of [w]. *)
Lemma handleSubmit_accepted (created : Outcome Query)
    (listed : Outcome QueryListResponse) (w : World) :
  truthy (trim (queryText w)) = true ->
  (queryType w = lit "analyze" -> truthy (trim (ticker w)) = true) ->
  let data :=
    {| qc_query_text := queryText w; qc_query_type := queryType w;
       qc_ticker := if bool_decide (queryType w = lit "analyze")
                    then Some (ticker w) else None |} in
  handleSubmit created listed w =
  match created with
  | resolved q =>
      with_form [] (queryType w) []
        (setPollingQueryId (Some (id q))
           (fetchQueries 0 20 listed (createQuery data created w)))
  | thrown _ => with_form [] (queryType w) [] (createQuery data created w)
  end.
Proof.
  intros Htext Htick. unfold handleSubmit. rewrite Htext. cbn [negb].
  assert ((if bool_decide (queryType w = lit "analyze")
           then Some (or_else (ticker w) (lit "AAPL")) else None)
          = (if bool_decide (queryType w = lit "analyze")
             then Some (ticker w) else None)) as ->.
  { case_bool_decide as Ha; [|done].
    unfold or_else. by rewrite (trim_truthy _ (Htick Ha)). }
  assert (bool_decide (queryType w = lit "analyze")
          && negb (truthy (trim (ticker w))) = false) as ->.
  { case_bool_decide as Ha; [|done]. by rewrite (Htick Ha). }
  destruct created as [q|d]; [|reflexivity].
  f_equal. rewrite setPollingQueryId_queryType. by destruct listed.
Qed.

Lemma arm_nonzero (B : Z) (w : World) :
  poll_ok w = true -> B <> 0 ->
  exists t, timers (setPollingQueryId (Some B) w) = [t] /\
            watched t = B /\ delay t = 2000 /\
            pollingQueryId (setPollingQueryId (Some B) w) = Some B.
Proof.
  intros Hok HB.
  destruct (decide (pollingQueryId w = Some B)) as [He|Hne].
  - destruct (setPollingQueryId_same _ w He) as [_ ->].
    apply poll_ok_cases in Hok as [(_ & _ & Hf)|(t & Ht & _ & Hp & _ & Hd)].
    + rewrite He in Hf. simpl in Hf. by apply Z.eqb_eq in Hf.
    + exists t. rewrite He in Hp. by simplify_eq.
  - destruct (setPollingQueryId_spec _ w Hok Hne)
      as (w1 & w2 & w3 & _ & -> & _ & _ & H3 & H4 & _).
    simpl in H3. apply Z.eqb_neq in HB. rewrite HB in H3. by eexists.
Qed.

(** The stretches of [handleSubmit] keep the polling bookkeeping
    consistent. *)
Lemma poll_ok_stretches (created : Outcome Query) (q : Query)
    (listed : Outcome QueryListResponse) (w : World) :
  poll_ok (handleSubmit_start w).1 = poll_ok w /\
  poll_ok (handleSubmit_created created w) = poll_ok w /\
  (poll_ok w = true -> poll_ok (handleSubmit_listed q listed w) = true).
Proof.
  split; [|split].
  - unfold handleSubmit_start.
    destruct (negb _); [done|]. by destruct (_ && _).
  - by destruct created.
  - intros Hok. unfold handleSubmit_listed.
    change (poll_ok (with_form ?a ?b ?c ?w)) with (poll_ok w).
    apply poll_ok_setPollingQueryId. by destruct listed.
Qed.

(** [handleSubmit] is its three stretches run with nothing in between. *)
Lemma handleSubmit_stretches (created : Outcome Query)
    (listed : Outcome QueryListResponse) (w : World) :
  handleSubmit created listed w =
  match (handleSubmit_start w).2, created with
  | None, _ => (handleSubmit_start w).1
  | Some _, resolved q =>
      handleSubmit_listed q listed
        (handleSubmit_created created (handleSubmit_start w).1)
  | Some _, thrown _ => handleSubmit_created created (handleSubmit_start w).1
  end.
Proof.
  unfold handleSubmit, handleSubmit_start.
  destruct (negb (truthy (trim (queryText w)))); [reflexivity|].
  destruct (bool_decide (queryType w = lit "analyze")
            && negb (truthy (trim (ticker w)))); [reflexivity|].
  destruct created as [q|d]; [|reflexivity].
  rewrite setPollingQueryId_queryType. by destruct listed.
Qed.

(** X10.  The last stretch of a successful submission, the code that runs
    once the refresh of the history is answered, starts the polling of the
    created query whatever happened to the mounted component while the two
    requests were in flight: from any consistent polling state, and for a
    non-zero id, it ends with exactly one timer, of period 2000, polling
    that id, with the text and the ticker of the form emptied and the query
    type kept; it writes neither the current query nor the comparison.
    When nothing happens between the stretches, which is [handleSubmit] run
    in one go on a form that passes the checks, the created query is the
    current one and no comparison is shown. *)
Theorem X10_successful_submission (q : Query)
    (listed : Outcome QueryListResponse) (w w0 : World) :
  (poll_ok w = true -> id q <> 0 ->
   let w' := handleSubmit_listed q listed w in
   (exists t, timers w' = [t] /\ watched t = id q /\ delay t = 2000) /\
   pollingQueryId w' = Some (id q) /\
   queryText w' = [] /\ ticker w' = [] /\ queryType w' = queryType w /\
   currentQuery (store w') = currentQuery (store w) /\
   comparisonData (store w') = comparisonData (store w)) /\
  (truthy (trim (queryText w0)) = true ->
   (queryType w0 = lit "analyze" -> truthy (trim (ticker w0)) = true) ->
   handleSubmit (resolved q) listed w0
   = handleSubmit_listed q listed
       (handleSubmit_created (resolved q) (handleSubmit_start w0).1) /\
   currentQuery (store (handleSubmit (resolved q) listed w0)) = Some q /\
   comparisonData (store (handleSubmit (resolved q) listed w0)) = None).
Proof.
  split.
  - intros Hok Hid w'. subst w'. unfold handleSubmit_listed.
    set (w1 := match listed with
               | resolved r => dispatch (fetchQueries_fulfilled r) w
               | thrown d => _
               end).
    assert (poll_ok w1 = true) as Hok1 by (subst w1; by destruct listed).
    destruct (arm_nonzero (id q) w1 Hok1 Hid) as (t & Ht & Hw & Hd & Hp).
    cbn [timers pollingQueryId store queryText ticker queryType with_form].
    rewrite setPollingQueryId_store.
    split; [by exists t|]. split; [done|]. subst w1. by destruct listed.
  - intros Htext Htick. split.
    + rewrite handleSubmit_stretches. unfold handleSubmit_start.
      rewrite Htext. cbn [negb].
      assert (bool_decide (queryType w0 = lit "analyze")
              && negb (truthy (trim (ticker w0))) = false) as ->; [|done].
      case_bool_decide as Ha; [|done]. by rewrite (Htick Ha).
    + rewrite (handleSubmit_accepted _ _ w0 Htext Htick).
      cbn [store with_form]. rewrite setPollingQueryId_store.
      by destruct listed.
Qed.

Lemma X10_witness :
  let w0 := with_form (lit "What is RSI?") (lit "general") []
              (mount initialState) in
  let w' := handleSubmit_listed (job 1 pending None 0) (thrown detail_absent)
              (handleSubmit_created (resolved (job 1 pending None 0))
                 (handleSubmit_start w0).1) in
  pollingQueryId w' = Some 1 /\ queryText w' = [] /\
  currentQuery (store (handleSubmit (resolved (job 1 pending None 0))
                         (thrown detail_absent) w0))
  = Some (job 1 pending None 0).
Proof.
  intros w0 w'.
  destruct (X10_successful_submission (job 1 pending None 0)
              (thrown detail_absent)
              (handleSubmit_created (resolved (job 1 pending None 0))
                 (handleSubmit_start w0).1) w0) as [H1 H2].
  destruct H1 as (_ & Hp & Hq & _); [reflexivity|discriminate|].
  destruct H2 as (_ & Hc & _); [reflexivity|discriminate|].
  split; [exact Hp|]. split; [exact Hq|exact Hc].
Defined.

(** X11.  A form that passes the checks and is rejected by the server
    starts no polling and asks for no refresh: the timers and the polled id
    are kept, the message is in the error slot, the busy flag is cleared,
    no row is added.  The text and the ticker of the form are emptied all
    the same. *)
Theorem X11_rejected_submission (d : Detail)
    (listed : Outcome QueryListResponse) (w : World) :
  truthy (trim (queryText w)) = true ->
  (queryType w = lit "analyze" -> truthy (trim (ticker w)) = true) ->
  let w' := handleSubmit (thrown d) listed w in
  timers w' = timers w /\ pollingQueryId w' = pollingQueryId w /\
  error (store w') = Some (createQuery_message d) /\
  loading (store w') = false /\
  queries (store w') = queries (store w) /\
  currentQuery (store w') = currentQuery (store w) /\
  filter (fun c => is_network c) (log w')
  = filter (fun c => is_network c) (log w)
    ++ [api_createQuery
          {| qc_query_text := queryText w; qc_query_type := queryType w;
             qc_ticker := if bool_decide (queryType w = lit "analyze")
                          then Some (ticker w) else None |}] /\
  queryText w' = [] /\ ticker w' = [].
Proof.
  intros Htext Htick w'. subst w'.
  rewrite (handleSubmit_accepted _ _ w Htext Htick).
  cbn [timers pollingQueryId store queryText ticker queryType with_form log].
  repeat split; try done.
  simpl. by rewrite filter_app.
Qed.

Lemma X11_witness :
  let w := with_form (lit "What is RSI?") (lit "general") []
             (mount initialState) in
  error (store (handleSubmit (thrown (detail_text (lit "Quota exceeded")))
                  (thrown detail_absent) w))
  = Some (lit "Quota exceeded") /\
  queryText (handleSubmit (thrown (detail_text (lit "Quota exceeded")))
               (thrown detail_absent) w) = [].
Proof.
  destruct (X11_rejected_submission (detail_text (lit "Quota exceeded"))
              (thrown detail_absent)
              (with_form (lit "What is RSI?") (lit "general") []
                 (mount initialState)))
    as (_ & _ & H1 & _ & _ & _ & _ & H2 & _); [reflexivity|discriminate|].
  by split.
Defined.

(** X12.  The request a passed form sends carries the text and the type as
    typed, not trimmed, and, for an analysis, the ticker as typed: the
    fallback ticker AAPL of the source is never sent.  For any other type
    no ticker is sent, whatever the ticker field holds. *)
Theorem X12_request_of_submission (created : Outcome Query)
    (listed : Outcome QueryListResponse) (w : World) :
  truthy (trim (queryText w)) = true ->
  (queryType w = lit "analyze" -> truthy (trim (ticker w)) = true) ->
  exists rest,
    log (handleSubmit created listed w)
    = log w
      ++ api_createQuery
           {| qc_query_text := queryText w; qc_query_type := queryType w;
              qc_ticker := if bool_decide (queryType w = lit "analyze")
                           then Some (ticker w) else None |} :: rest.
Proof.
  intros Htext Htick.
  rewrite (handleSubmit_accepted _ _ w Htext Htick).
  destruct created as [q|d]; cbn [log with_form].
  - rewrite setPollingQueryId_log.
    destruct (fetchQueries_fields 0 20 listed
                (createQuery
                   {| qc_query_text := queryText w;
                      qc_query_type := queryType w;
                      qc_ticker :=
                        if bool_decide (queryType w = lit "analyze")
                        then Some (ticker w) else None |} (resolved q) w))
      as (_ & _ & _ & ->).
    rewrite createQuery_log, <- app_assoc. by eexists.
  - rewrite createQuery_log. by eexists.
Qed.

Lemma X12_witness :
  exists rest,
    log (handleSubmit (thrown detail_absent) (thrown detail_absent)
           (with_form (lit " Buy? ") (lit "analyze") (lit "msft ")
              (mount initialState)))
    = api_createQuery
        {| qc_query_text := lit " Buy? "; qc_query_type := lit "analyze";
           qc_ticker := Some (lit "msft ") |} :: rest.
Proof.
  apply (X12_request_of_submission (thrown detail_absent)
           (thrown detail_absent)
           (with_form (lit " Buy? ") (lit "analyze") (lit "msft ")
              (mount initialState))); reflexivity.
Defined.

(** X13.  The callback stops the polling by writing [null], whatever id it
    has captured: in a reachable world where a job is polled, the callback
    of any id, also the late one of a watch that was replaced, that fetches
    a completed or failed job leaves no timer and nothing polled, so the
    running watch is lost, and makes the job it fetched the current
    query. *)
Theorem X13_late_terminal_answer_stops_other_watch (s : QueryState)
    (events : list Event) (t : Timer) (query_id : Z) (query : Query)
    (listed : Outcome QueryListResponse) :
  timers (after_events s events) = [t] ->
  terminal (status query) = true ->
  let w' :=
    pollInterval_callback query_id (resolved query) listed
      (after_events s events) in
  timers w' = [] /\ pollingQueryId w' = None /\
  currentQuery (store w') = Some query.
Proof.
  intros Ht Hterm.
  pose proof (poll_ok_after_events s events) as Hok.
  generalize dependent (after_events s events). intros w Ht Hok w'.
  subst w'. unfold pollInterval_callback. rewrite Hterm.
  destruct (fetchQuery_fields query_id (resolved query) w)
    as (F1 & _ & F3 & _).
  assert (poll_ok (fetchQuery query_id (resolved query) w) = true) as Hok1
    by (by rewrite poll_ok_fetchQuery).
  assert (pollingQueryId (fetchQuery query_id (resolved query) w) <> None)
    as Hne.
  { rewrite F3.
    apply poll_ok_cases in Hok as [(? & _)|(? & _ & _ & -> & _)];
      congruence. }
  destruct (setPollingQueryId_spec None _ Hok1 Hne)
    as (u1 & u2 & u3 & _ & Hu & _ & _ & H3 & H4 & H5 & _).
  rewrite Hu.
  destruct (fetchQueries_fields 0 20 listed u3) as (G1 & _ & G3 & _).
  rewrite G1, G3, H3, H4. split; [done|]. split; [done|].
  destruct listed; simpl; by rewrite H5.
Qed.

Lemma X13_witness :
  let events :=
    [typed (lit "What is RSI?") (lit "general") [];
     submitted (resolved (job 1 pending None 0)) (thrown detail_absent);
     typed (lit "What is MACD?") (lit "general") [];
     submitted (resolved (job 2 pending None 0)) (thrown detail_absent)] in
  timers (after_events initialState events)
  = [{| handle := 1; watched := 2; delay := 2000 |}] /\
  timers (pollInterval_callback 1 (resolved (job 1 completed None 0))
            (thrown detail_absent) (after_events initialState events)) = [].
Proof.
  split; [reflexivity|].
  apply (X13_late_terminal_answer_stops_other_watch initialState
           [typed (lit "What is RSI?") (lit "general") [];
            submitted (resolved (job 1 pending None 0))
              (thrown detail_absent);
            typed (lit "What is MACD?") (lit "general") [];
            submitted (resolved (job 2 pending None 0))
              (thrown detail_absent)]
           {| handle := 1; watched := 2; delay := 2000 |} 1
           (job 1 completed None 0) (thrown detail_absent));
    reflexivity.
Defined.

(** X14.  Whatever the user types and submits and whatever the callbacks
    fetch, the component is in one of two states: nothing is polled and no
    timer is active, or exactly one timer of period 2000 is active, for the
    polled id, which is not 0. *)
Theorem X14_polling_state (s : QueryState) (events : list Event) :
  let w := after_events s events in
  (timers w = [] /\ falsy (pollingQueryId w) = true) \/
  (exists t, timers w = [t] /\ pollingQueryId w = Some (watched t) /\
             watched t <> 0 /\ delay t = 2000).
Proof.
  pose proof (poll_ok_after_events s events) as Hok.
  apply poll_ok_cases in Hok as [(? & _ & ?)|(t & ? & _ & ? & ? & ?)].
  - by left.
  - right. by exists t.
Qed.

End PollExtras.

(** * Further properties of the history and of the result panel *)
Section HistoryExtras.
Import QuerySlice Samples QueryInput QueryHistory HistoryView Dashboard.

Lemma includes_empty (s : jsstring) : includes s [] = true.
Proof. by destruct s. Qed.

Lemma filter_all (P : Query -> Prop) `{!forall q, Decision (P q)}
    (l : list Query) :
  Forall P l -> filter P l = l.
Proof.
  induction 1 as [|q l Hq Hl IH]; [done|].
  rewrite filter_cons_True by done. by f_equal.
Qed.

(** X15.  With an empty search term every row of the store is shown, once,
    whatever the sort. *)
Theorem X15_empty_search_shows_all (sortBy : SortBy) (rows : list Query) :
  filter (fun q => search_match [] q) rows = rows /\
  sorted_rows [] sortBy rows ≡ₚ rows.
Proof.
  assert (filter (fun q => search_match [] q) rows = rows) as Hall.
  { apply (filter_all _). apply Forall_forall. intros q _.
    unfold search_match, search_match_in. simpl.
    by rewrite includes_empty. }
  split; [done|]. unfold sorted_rows, sorted_rows_in.
  change (filter (fun q => search_match_in code_units [] q) rows)
    with (filter (fun q => search_match [] q) rows).
  rewrite Hall. apply sorted_perm.
Qed.

Lemma localeCompare_refl (a : jsstring) : localeCompare a a = 0.
Proof.
  induction a as [|x a IH]; simpl; [done|]. by rewrite N.compare_refl.
Qed.

(** Sorting does not reorder the rows of a class whose members the
    comparator does not put strictly after one another. *)
Lemma sorted_filter_class (cmp : Query -> Query -> Z) (P : Query -> Prop)
    `{!forall q, Decision (P q)} (l : list Query) :
  (forall x y, P x -> P y -> cmp x y <= 0) ->
  filter P (sorted cmp l) = filter P l.
Proof.
  intros Hclass.
  assert (forall x l', filter P (sort_insert cmp x l') = filter P (x :: l'))
    as Hins.
  { intros x l'. induction l' as [|y l' IH]; simpl; [done|].
    destruct (Z.leb_spec (cmp x y) 0) as [Hle|Hgt]; [done|].
    rewrite filter_cons, IH, !filter_cons.
    destruct (decide (P x)) as [Hx|Hx], (decide (P y)) as [Hy|Hy];
      try done.
    specialize (Hclass x y Hx Hy). lia. }
  induction l as [|x l IH]; simpl; [done|].
  fold (sorted cmp l). rewrite Hins, !filter_cons. by rewrite IH.
Qed.

(** X16.  The sort is stable on the rows shown: the rows with one and the
    same ticker (an absent ticker counting as empty) keep the order they
    have in the store when sorted by ticker, and so do the rows with one
    and the same creation time when sorted by [newest] or [oldest]. *)
Theorem X16_sort_keeps_order_of_ties (searchTerm : jsstring)
    (rows : list Query) (k : jsstring) (c : Z) :
  filter (fun q => ticker_or_empty q = k)
    (sorted_rows searchTerm by_ticker rows)
  = filter (fun q => ticker_or_empty q = k)
      (filter (fun q => search_match searchTerm q) rows) /\
  filter (fun q => created_at q = c) (sorted_rows searchTerm newest rows)
  = filter (fun q => created_at q = c)
      (filter (fun q => search_match searchTerm q) rows) /\
  filter (fun q => created_at q = c) (sorted_rows searchTerm oldest rows)
  = filter (fun q => created_at q = c)
      (filter (fun q => search_match searchTerm q) rows).
Proof.
  unfold sorted_rows. split; [|split]; apply (sorted_filter_class _ _).
  - intros x y Hx Hy. simpl. by rewrite Hx, Hy, localeCompare_refl.
  - intros x y Hx Hy. simpl. lia.
  - intros x y Hx Hy. simpl. lia.
Qed.

(** X17.  The label of a row is never empty and has at most 48 code units:
    a text of up to 45 units is shown whole, a longer one is cut to its
    first 45 units followed by three dots, and a row with neither text nor
    ticker is labelled [No query text]. *)
Theorem X17_displayText (query : Query) :
  displayText query <> [] /\
  (length (displayText query) <= 48)%nat /\
  (query_text query <> [] -> (length (query_text query) <= 45)%nat ->
     displayText query = query_text query) /\
  ((45 < length (query_text query))%nat ->
     displayText query = take 45 (query_text query) ++ lit "...") /\
  (query_text query = [] -> ticker_or_empty query = [] ->
     displayText query = lit "No query text").
Proof.
  assert (forall s : jsstring, s <> [] ->
            (if (45 <? length s)%nat then take 45 s ++ lit "..." else s)
            <> [] /\
            (length (if (45 <? length s)%nat then take 45 s ++ lit "..."
                     else s) <= 48)%nat) as Hcut.
  { intros s Hs. destruct (Nat.ltb_spec 45 (length s)) as [Hlt|Hle].
    - split.
      + intros H. apply app_eq_nil in H as [_ H]. done.
      + rewrite length_app, length_take.
        change (length (lit "...")) with 3%nat. lia.
    - split; [done|lia]. }
  unfold displayText, ticker_or_empty.
  destruct (query_text query) as [|c text] eqn:Etext; cbn [truthy].
  - destruct (Types.ticker query) as [[|c t]|]; unfold or_else; cbn [truthy].
    + repeat split; try done; vm_compute; lia.
    + destruct (Hcut (c :: t)) as [? ?]; [done|].
      repeat split; try done. simpl. lia.
    + repeat split; try done; vm_compute; lia.
  - unfold or_else. cbn [truthy].
    destruct (Hcut (c :: text)) as [? ?]; [done|].
    split; [done|]. split; [done|]. split; [|split].
    + intros _ Hle. destruct (Nat.ltb_spec 45 (length (c :: text))); [lia|done].
    + intros Hlt. destruct (Nat.ltb_spec 45 (length (c :: text))); [done|lia].
    + done.
Qed.

Lemma X17_witness :
  displayText (job 1 pending None 0) = lit "What is RSI?" /\
  displayText
    {| id := 2; user_id := 1; query_text := []; query_type := lit "general";
       Types.ticker := None; result := None; status := pending;
       error_message := None; created_at := 0; completed_at := None |}
  = lit "No query text".
Proof.
  split.
  - apply (X17_displayText (job 1 pending None 0)); [discriminate|].
    vm_compute. lia.
  - by apply (X17_displayText
                {| id := 2; user_id := 1; query_text := [];
                   query_type := lit "general"; Types.ticker := None;
                   result := None; status := pending;
                   error_message := None; created_at := 0;
                   completed_at := None |}).
Defined.

(** X18.  [handleDelete] asks for a confirmation first.  Declined, it makes
    no request and leaves the store as it is.  Confirmed and refused by the
    server, it leaves the whole store as it is too: the failure reaches
    neither the list nor the error slot.  Confirmed and done, no row of
    that id is left and the total is one less. *)
Theorem X18_handleDelete (query_id : Z) (answer : Outcome unit)
    (d : Detail) (w : HistoryWorld) :
  (hstore (handleDelete query_id false answer w) = hstore w /\
   hlog (handleDelete query_id false answer w)
   = hlog w ++ [window_confirm (lit "Delete this query?")]) /\
  (hstore (handleDelete query_id true (thrown d) w) = hstore w /\
   hlog (handleDelete query_id true (thrown d) w)
   = hlog w ++ [window_confirm (lit "Delete this query?");
                service_deleteQuery query_id]) /\
  (Forall (fun q => id q <> query_id)
     (queries (hstore (handleDelete query_id true (resolved tt) w))) /\
   total (hstore (handleDelete query_id true (resolved tt) w))
   = total (hstore w) - 1 /\
   error (hstore (handleDelete query_id true (resolved tt) w))
   = error (hstore w)).
Proof.
  split; [done|]. split.
  - simpl. by rewrite <- app_assoc.
  - simpl. split; [|done].
    apply Forall_forall. intros q Hq.
    by apply list_elem_of_filter in Hq as [? _].
Qed.

(** X19.  A click on a row asks the server for the job of that id.  When
    the request fails the store is left as it is: the row is not shown and
    no error is reported.  When it succeeds the job the server sent is the
    current query, not the row that was clicked. *)
Theorem X19_handleQueryClick (query fetched : Query) (d : Detail)
    (w : HistoryWorld) :
  hstore (handleQueryClick query (thrown d) w) = hstore w /\
  currentQuery (hstore (handleQueryClick query (resolved fetched) w))
  = Some fetched /\
  comparisonData (hstore (handleQueryClick query (resolved fetched) w))
  = comparisonData (hstore w) /\
  hlog (handleQueryClick query (resolved fetched) w)
  = hlog w ++ [service_getQuery (id query)].
Proof. done. Qed.

(** X20.  The panel puts the comparison before the current query: when a
    comparison is in the store and a job is fetched (a click on a row of
    the history, or a poll tick), the panel outside the document view
    still shows the comparison under the title [Stock Comparison], with
    the status chip of the fetched job next to it; the fetched job itself
    is not shown. *)
Theorem X20_comparison_hides_fetched_job (activeView : Z)
    (ragResult : option any) (state : QueryState) (c : any)
    (payload : Query) :
  comparisonData state = Some c ->
  activeView <> 2 ->
  let state' := reducer state (fetchQuery_fulfilled payload) in
  resultPanel activeView ragResult state' = ComparisonDisplay c /\
  panelTitle activeView state' = lit "Stock Comparison" /\
  statusChip activeView state' = Some (status payload).
Proof.
  intros Hc Hv. apply Z.eqb_neq in Hv.
  unfold resultPanel, panelTitle, statusChip. simpl. by rewrite Hv, Hc.
Qed.

Lemma X20_witness :
  resultPanel 0 None
    (run initialState
       [setComparisonData (Some comparison);
        fetchQuery_fulfilled (job 1 completed None 0)])
  = ComparisonDisplay comparison.
Proof.
  by apply (X20_comparison_hides_fetched_job 0 None
              (reducer initialState (setComparisonData (Some comparison)))
              comparison (job 1 completed None 0)).
Defined.

End HistoryExtras.

(** * Properties of [formatRelativeTime] *)
Section FormatterProperties.
Import Formatters.

(** X21.  [formatRelativeTime] reads [Just now] for a date less than a
    minute old, a date in the future included; then whole minutes from 1 to
    59, whole hours from 1 to 23 and whole days from 1 to 6, each rounded
    down; and from seven days on it leaves the date to the locale, with the
    year when the years differ. *)
Theorem X21_formatRelativeTime (getFullYear : Z -> Z) (now date : Z) :
  let r := formatRelativeTime getFullYear now date in
  (now - date < 60000 -> r = text (lit "Just now")) /\
  (60000 <= now - date < 3600000 ->
     1 <= (now - date) / 60000 <= 59 /\
     r = text (decimal ((now - date) / 60000) ++ lit "m ago")) /\
  (3600000 <= now - date < 86400000 ->
     1 <= (now - date) / 3600000 <= 23 /\
     r = text (decimal ((now - date) / 3600000) ++ lit "h ago")) /\
  (86400000 <= now - date < 604800000 ->
     1 <= (now - date) / 86400000 <= 6 /\
     r = text (decimal ((now - date) / 86400000) ++ lit "d ago")) /\
  (604800000 <= now - date ->
     r = locale_date date (negb (getFullYear date =? getFullYear now))).
Proof.
  unfold formatRelativeTime. cbv zeta.
  set (d := now - date).
  assert (d / 1000 / 60 = d / 60000) as E1
    by (rewrite Z.div_div by lia; reflexivity).
  assert (d / 1000 / 3600 = d / 3600000) as E2
    by (rewrite Z.div_div by lia; reflexivity).
  assert (d / 1000 / 86400 = d / 86400000) as E3
    by (rewrite Z.div_div by lia; reflexivity).
  rewrite E1, E2, E3.
  pose proof (Z.div_mod d 1000 ltac:(lia)) as Hd.
  pose proof (Z.mod_pos_bound d 1000 ltac:(lia)) as Hm.
  assert (forall k, 0 < k -> k <= d -> 1 <= d / k) as Hlow
    by (intros k Hk Hle; apply Z.div_le_lower_bound; lia).
  assert (forall k n, 0 < k -> d < k * (n + 1) -> d / k <= n) as Hup
    by (intros k n Hk Hlt; apply Z.lt_succ_r, Z.div_lt_upper_bound; lia).
  split; [|split; [|split; [|split]]]; intros H;
    repeat match goal with
      | |- context [?a <? ?b] => destruct (Z.ltb_spec a b); try lia
      end;
    try reflexivity;
    (split; [split; [apply Hlow; lia | apply Hup; lia] | reflexivity]).
Qed.

Lemma X21_witness :
  formatRelativeTime (fun _ => 2026) 1000000 2000000 = text (lit "Just now")
  /\ formatRelativeTime (fun _ => 2026) 7500000 0 = text (lit "2h ago")
  /\ formatRelativeTime (fun _ => 2026) 604800000 0 = locale_date 0 false.
Proof.
  split; [|split].
  - apply (X21_formatRelativeTime (fun _ => 2026) 1000000 2000000). lia.
  - apply (X21_formatRelativeTime (fun _ => 2026) 7500000 0). lia.
  - apply (X21_formatRelativeTime (fun _ => 2026) 604800000 0). lia.
Defined.

End FormatterProperties.

(** * Properties of [handleCompare] *)
Section CompareProperties.
Import QuerySlice Samples QueryInput StockComparison Dashboard.

Lemma tickerList_length (s : jsstring) :
  length (tickerList s)
  = length (filter (fun e => truthy (trim e)) (split_comma s)).
Proof.
  unfold tickerList. induction (split_comma s) as [|e l IH]; [done|].
  rewrite fmap_cons, !filter_cons.
  assert ((0 < length (toUpperCase (trim e)))%nat <-> truthy (trim e))
    as Hiff.
  { unfold toUpperCase. rewrite length_fmap.
    destruct (trim e); simpl; split; try done; lia. }
  destruct (decide (0 < length (toUpperCase (trim e)))%nat) as [H|H],
    (decide (truthy (trim e))) as [H'|H']; simpl.
  - f_equal. exact IH.
  - by apply Hiff in H.
  - by apply Hiff in H'.
  - exact IH.
Qed.

(** X22.  [handleCompare] counts the comma-separated entries that are not
    blank.  With fewer than 2 or more than 5 it sends no request, leaves
    the store and the busy flag as they are and sets its error text; with
    2 to 5 it sends one request, for that many tickers over six months,
    and ends with the busy flag cleared. *)
Theorem X22_handleCompare_validation (answer : Outcome any)
    (w : CompareWorld) :
  let n := length (filter (fun e => truthy (trim e))
                     (split_comma (tickers w))) in
  let w' := handleCompare answer w in
  ((n < 2 \/ 5 < n)%nat ->
     clog w' = clog w /\ cstore w' = cstore w /\ cloading w' = cloading w /\
     cerror w'
     = error_text (lit "Please enter 2-5 tickers separated by commas")) /\
  ((2 <= n <= 5)%nat ->
     exists list,
       clog w' = clog w ++ [post_compare list (lit "6mo")] /\
       length list = n /\ Forall (fun t => t <> []) list /\
       cloading w' = false).
Proof.
  cbv zeta. rewrite <- tickerList_length. unfold handleCompare.
  split; intros Hn.
  - destruct (Nat.ltb_spec (length (tickerList (tickers w))) 2),
      (Nat.ltb_spec 5 (length (tickerList (tickers w)))); simpl; try done;
      lia.
  - destruct (Nat.ltb_spec (length (tickerList (tickers w))) 2),
      (Nat.ltb_spec 5 (length (tickerList (tickers w)))); try lia.
    simpl. exists (tickerList (tickers w)).
    assert (Forall (fun t => t <> []) (tickerList (tickers w))) as Hne.
    { apply Forall_forall. intros t Ht. unfold tickerList in Ht.
      apply list_elem_of_filter in Ht as [Hlen _]. destruct t; simpl in *;
        [lia|done]. }
    by destruct answer.
Qed.

Lemma X22_witness :
  let w :=
    {| cstore := initialState; tickers := lit "aapl, ,msft";
       cloading := false; comparisonLocal := lit "[]";
       cerror := error_text []; clog := [] |} in
  clog (handleCompare (thrown detail_absent) w)
  = [post_compare [lit "AAPL"; lit "MSFT"] (lit "6mo")] /\
  (exists list,
     clog (handleCompare (thrown detail_absent) w)
     = [post_compare list (lit "6mo")] /\ length list = 2%nat) /\
  clog (handleCompare (thrown detail_absent)
          {| cstore := initialState; tickers := lit "aapl,";
             cloading := false; comparisonLocal := lit "[]";
             cerror := error_text []; clog := [] |}) = [].
Proof.
  split; [reflexivity|]. split.
  - destruct (X22_handleCompare_validation (thrown detail_absent)
                {| cstore := initialState; tickers := lit "aapl, ,msft";
                   cloading := false; comparisonLocal := lit "[]";
                   cerror := error_text []; clog := [] |})
      as [_ H].
    destruct H as (list & H1 & H2 & _); [vm_compute; lia|].
    exists list. split; [exact H1|exact H2].
  - apply (X22_handleCompare_validation (thrown detail_absent)
             {| cstore := initialState; tickers := lit "aapl,";
                cloading := false; comparisonLocal := lit "[]";
                cerror := error_text []; clog := [] |}).
    vm_compute. lia.
Defined.

(** X23.  A comparison that succeeds takes the display: the payload is in
    the store, the current query is dropped, and the panel of the
    dashboard shows the comparison.  A comparison that fails leaves the
    store as it is and keeps the error in the component. *)
Theorem X23_handleCompare_outcome (comparisonResult : any) (d : Detail)
    (w : CompareWorld) :
  (2 <= length (tickerList (tickers w)) <= 5)%nat ->
  let ok := handleCompare (resolved comparisonResult) w in
  let ko := handleCompare (thrown d) w in
  comparisonData (cstore ok) = Some (comparison_payload comparisonResult) /\
  currentQuery (cstore ok) = None /\
  resultPanel 0 None (cstore ok)
  = ComparisonDisplay (comparison_payload comparisonResult) /\
  queries (cstore ok) = queries (cstore w) /\
  cerror ok = error_text [] /\
  cstore ko = cstore w /\ cerror ko = compare_error d /\
  cloading ko = false.
Proof.
  intros Hn. unfold handleCompare.
  destruct (Nat.ltb_spec (length (tickerList (tickers w))) 2),
    (Nat.ltb_spec 5 (length (tickerList (tickers w)))); try lia.
  done.
Qed.

Lemma X23_witness :
  let w :=
    {| cstore := showing (job 1 completed None 0);
       tickers := lit "AAPL,MSFT"; cloading := false;
       comparisonLocal := lit "[]"; cerror := error_text []; clog := [] |} in
  currentQuery (cstore (handleCompare (resolved (lit "[1,2]")) w)) = None.
Proof.
  apply (X23_handleCompare_outcome (lit "[1,2]") detail_absent
           {| cstore := showing (job 1 completed None 0);
              tickers := lit "AAPL,MSFT"; cloading := false;
              comparisonLocal := lit "[]"; cerror := error_text [];
              clog := [] |}).
  vm_compute. lia.
Defined.

End CompareProperties.

(** * Properties of the authentication slice *)
Section AuthProperties.
Import QueryInput AuthSlice.

Lemma user_authenticated_step (s : Session) (a : Action) :
  (user (auth s) <> None -> isAuthenticated (auth s) = true) ->
  user (auth (reducer s a)) <> None ->
  isAuthenticated (auth (reducer s a)) = true.
Proof. destruct a; simpl; auto; done. Qed.

(** X24.  Whatever the storage holds at start and whatever actions follow,
    the slice never holds a user without being authenticated. *)
Theorem X24_user_implies_authenticated (st : Storage)
    (actions : list Action) :
  user (auth (run (start st) actions)) <> None ->
  isAuthenticated (auth (run (start st) actions)) = true.
Proof.
  unfold run. induction actions as [|a actions IH] using rev_ind.
  - simpl. done.
  - rewrite foldl_app. simpl. by apply user_authenticated_step.
Qed.

Lemma X24_witness :
  let u :=
    {| u_id := 1; email := lit "a@b.c"; username := lit "ann";
       full_name := None; is_active := true;
       u_created_at := lit "2026-01-01" |} in
  isAuthenticated
    (auth (run (start {| stored_access := None; stored_refresh := None |})
             [login_pending; login_fulfilled u; register_pending;
              register_rejected (lit "taken")])) = true.
Proof.
  apply (X24_user_implies_authenticated
           {| stored_access := None; stored_refresh := None |}).
  discriminate.
Defined.

(** X25.  [login] stores the tokens as soon as the server hands them out.
    When the request for the user then fails with a status other than 401,
    or with no response, the slice reports the error and its
    [isAuthenticated] flag is not raised, but the tokens stay in the
    storage, so that the service and the slice of a reloaded application
    count as authenticated whenever the access token is not empty.  When
    it fails with status 401 the interceptor asks for new tokens with the
    refresh token just stored, and a refusal removes both tokens.  When the
    request for the tokens itself fails with a status other than 401 the
    storage is left as it is. *)
Theorem X25_login_keeps_tokens (t : AuthTokens) (status : option Z)
    (d d' : Detail) (posted : Exchange AuthTokens) (me : Exchange User)
    (s : Session) :
  (first posted = reply_ok t -> first me = reply_error status d ->
   status <> Some 401 ->
   let half := login posted me s in
   storage half = {| stored_access := Some (access_token t);
                     stored_refresh := Some (refresh_token t) |} /\
   isAuthenticated (auth half) = isAuthenticated (auth s) /\
   user (auth half) = user (auth s) /\
   error (auth half) = Some (auth_message (lit "Login failed") d) /\
   service_isAuthenticated (storage half) = truthy (access_token t) /\
   isAuthenticated (initialState (storage half))
   = truthy (access_token t)) /\
  (first posted = reply_ok t -> first me = reply_error (Some 401) d ->
   truthy (refresh_token t) = true ->
   refresh me = reply_error status d' ->
   storage (login posted me s)
   = {| stored_access := None; stored_refresh := None |}) /\
  (first posted = reply_error status d -> status <> Some 401 ->
   storage (login posted me s) = storage s /\
   error (auth (login posted me s))
   = Some (auth_message (lit "Login failed") d)).
Proof.
  unfold login, request. split; [|split].
  - intros -> -> Hs. cbn [outcome storage_after].
    by rewrite bool_decide_eq_false_2.
  - intros -> -> Ht ->. cbn [outcome storage_after stored stored_refresh].
    rewrite bool_decide_eq_true_2, Ht by done. done.
  - intros -> Hs. by rewrite bool_decide_eq_false_2.
Qed.

Lemma X25_witness :
  let t := {| access_token := lit "abc"; refresh_token := lit "def";
              token_type := lit "bearer" |} in
  let u := {| u_id := 1; email := lit "a@b.c"; username := lit "ann";
              full_name := None; is_active := true;
              u_created_at := lit "2026-01-01" |} in
  let s := start {| stored_access := None; stored_refresh := None |} in
  let refused := reply_error (Some 401) detail_absent in
  storage (login {| first := reply_ok t; refresh := refused;
                    again := reply_ok t |}
             {| first := reply_error (Some 500) detail_absent;
                refresh := refused; again := reply_ok u |} s)
  = {| stored_access := Some (lit "abc");
       stored_refresh := Some (lit "def") |} /\
  storage (login {| first := reply_ok t; refresh := refused;
                    again := reply_ok t |}
             {| first := reply_error (Some 401) detail_absent;
                refresh := refused; again := reply_ok u |} s)
  = {| stored_access := None; stored_refresh := None |} /\
  storage (login {| first := reply_error None detail_absent;
                    refresh := refused; again := reply_ok t |}
             {| first := reply_ok u; refresh := refused;
                again := reply_ok u |} s)
  = {| stored_access := None; stored_refresh := None |}.
Proof.
  intros t u s refused. split; [|split].
  - destruct (X25_login_keeps_tokens t (Some 500) detail_absent
                detail_absent
                {| first := reply_ok t; refresh := refused;
                   again := reply_ok t |}
                {| first := reply_error (Some 500) detail_absent;
                   refresh := refused; again := reply_ok u |} s)
      as (H & _ & _).
    apply H; [reflexivity | reflexivity | discriminate].
  - destruct (X25_login_keeps_tokens t (Some 401) detail_absent
                detail_absent
                {| first := reply_ok t; refresh := refused;
                   again := reply_ok t |}
                {| first := reply_error (Some 401) detail_absent;
                   refresh := refused; again := reply_ok u |} s)
      as (_ & H & _).
    apply H; reflexivity.
  - destruct (X25_login_keeps_tokens t None detail_absent detail_absent
                {| first := reply_error None detail_absent;
                   refresh := refused; again := reply_ok t |}
                {| first := reply_ok u; refresh := refused;
                   again := reply_ok u |} s)
      as (_ & _ & H).
    apply H; [reflexivity | discriminate].
Defined.

End AuthProperties.
